(** * BioAmp-Filter-Designer: the generated streaming filter [MyFilter]
      and the window of the GUI that launches the generator.

    Sources embedded here:
    - [src/my_filter.py]: class [MyFilter] ([__init__], [process], [reset]),
      the artifact generated for a 4th-order low-pass Butterworth filter
      (sampling rate 500 Hz, cutoff 50 Hz), realised as two biquads;
    - [src/GUI.py]: the worker thread [FilterThread.run], and of
      [ModernFilterGUI] the dictionary of tool tips, the items of the
      language selector, [on_filter_type_changed], [get_file_extension],
      [build_command], [generate_filter], [on_generation_finished] and
      [on_generation_error].

    A Python instance is modelled by its attribute dictionary, a method by a
    state-and-exception computation over that dictionary, and the interpreter
    heap by a finite map from object identities to instances.  Arithmetic is
    kept abstract behind the class [Scalar]; it is instantiated with exact
    rationals ([Q]) and with IEEE-754 binary64 ([PrimFloat.float]), the type
    of Python's [float].  The window of the GUI is modelled by the values its
    input widgets hold and by what it shows; the texts a user types are
    sequences of Unicode code points. *)

From Stdlib Require Import ZArith QArith Qabs Qround Qpower Qreals Reals.
From Stdlib Require Import Psatz List.
From Stdlib Require Import Floats.PrimFloat Floats.FloatOps Floats.SpecFloat.
From Stdlib Require Import Floats.FloatAxioms.
From Stdlib Require Uint63.
From Stdlib Require Import Ascii String.
From stdpp Require Import gmap strings.

Set Default Proof Using "Type".

(** ** Scalars *)

(** The arithmetic used by the generated code: decimal literals, unary minus,
    and the binary operators [+], [-], [*]. *)
Class Scalar (T : Type) := {
  lit : Q -> T;
  neg : T -> T;
  add : T -> T -> T;
  sub : T -> T -> T;
  mul : T -> T -> T
}.

Arguments lit {T _} _%_Q.

Declare Scope scalar_scope.
Delimit Scope scalar_scope with sc.
Notation "x + y" := (add x y) : scalar_scope.
Notation "x - y" := (sub x y) : scalar_scope.
Notation "x * y" := (mul x y) : scalar_scope.
Notation "- x" := (neg x) : scalar_scope.

(** Exact rational arithmetic. *)
#[export] Instance Q_Scalar : Scalar Q := {|
  lit := fun q => q;
  neg := Qopp;
  add := Qplus;
  sub := Qminus;
  mul := Qmult
|}.

(** Binary64 arithmetic.  A decimal literal [n / 10^k] with [n] and [10^k]
    below [2^53] is read as the correctly rounded quotient of two exactly
    represented integers, which is the double nearest to the literal. *)
Definition float_of_literal (q : Q) : float :=
  PrimFloat.div (PrimFloat.of_uint63 (Uint63.of_Z (Qnum q)))
                (PrimFloat.of_uint63 (Uint63.of_Z (Zpos (Qden q)))).

#[export] Instance float_Scalar : Scalar float := {|
  lit := float_of_literal;
  neg := PrimFloat.opp;
  add := PrimFloat.add;
  sub := PrimFloat.sub;
  mul := PrimFloat.mul
|}.

(** The exact value of a finite double, as a rational. *)
Definition float_to_Q (f : float) : option Q :=
  match Prim2SF f with
  | S754_zero _ => Some 0%Q
  | S754_finite s m e =>
      let v := (inject_Z (Zpos m) * (2 ^ e))%Q in
      Some (if s then Qopp v else v)
  | _ => None
  end.

(** ** Python instances and methods *)

(** Exceptions a method of the class can raise. *)
Inductive exn := AttributeError (name : string).

(** Outcome of running a method body on an instance. *)
Inductive outcome (S A : Type) :=
  | Returns (a : A) (self : S)
  | Raises (e : exn) (self : S).
Arguments Returns {S A} a self.
Arguments Raises {S A} e self.

Definition final_state {S A} (o : outcome S A) : S :=
  match o with
  | Returns _ self => self
  | Raises _ self => self
  end.

Definition returned {S A} (o : outcome S A) : option A :=
  match o with
  | Returns a _ => Some a
  | Raises _ _ => None
  end.

(** [self.__dict__], with attribute values in [T]. *)
Abbreviation instance T := (gmap string T).

(** The heap: objects by identity. *)
Abbreviation heap T := (gmap nat (instance T)).

(** A method body: it runs on [self] and returns or raises. *)
Definition Meth (T A : Type) : Type := instance T -> outcome (instance T) A.

Section Methods.
Context {T : Type}.

Definition ret {A} (a : A) : Meth T A := fun self => Returns a self.

Definition bind {A B} (m : Meth T A) (k : A -> Meth T B) : Meth T B :=
  fun self =>
    match m self with
    | Returns a self' => k a self'
    | Raises e self' => Raises e self'
    end.

(** [self.name] *)
Definition getattr (name : string) : Meth T T :=
  fun self =>
    match self !! name with
    | Some v => Returns v self
    | None => Raises (AttributeError name) self
    end.

(** [self.name = v] *)
Definition setattr (name : string) (v : T) : Meth T unit :=
  fun self => Returns tt (<[name := v]> self).

End Methods.

Declare Scope meth_scope.
Delimit Scope meth_scope with meth.
Notation "x <- m ;; k" := (bind m (fun x => k))
  (at level 20, m at level 99, k at level 200, only parsing) : meth_scope.
Notation "m ;; k" := (bind m (fun _ => k))
  (at level 100, k at level 200, only parsing) : meth_scope.

(** ** [src/my_filter.py]: class [MyFilter] *)

Module MyFilter.
Section Class.
Context {T : Type} `{Scalar T}.
Local Open Scope string_scope.
Local Open Scope scalar_scope.
Local Open Scope meth_scope.

(** [def __init__(self)] *)
Definition __init__ : Meth T unit :=
  setattr "z1_0" (lit 0.0) ;;
  setattr "z2_0" (lit 0.0) ;;
  setattr "z1_1" (lit 0.0) ;;
  setattr "z2_1" (lit 0.0).

(** [def process(self, input_sample)].  Every occurrence of [self.z] in the
    body is a read of the attribute, in Python's left-to-right order. *)
Definition process (input_sample : T) : Meth T T :=
  let output := input_sample in
  (* Biquad section 0 *)
  r1 <- getattr "z1_0" ;; r2 <- getattr "z2_0" ;;
  let x := output - (- lit 1.04859958 * r1) - (lit 0.29614036 * r2) in
  r1 <- getattr "z1_0" ;; r2 <- getattr "z2_0" ;;
  let output := lit 0.00482434 * x + lit 0.00964869 * r1 + lit 0.00482434 * r2 in
  r1 <- getattr "z1_0" ;; setattr "z2_0" r1 ;;
  setattr "z1_0" x ;;
  (* Biquad section 1 *)
  r1 <- getattr "z1_1" ;; r2 <- getattr "z2_1" ;;
  let x := output - (- lit 1.32091343 * r1) - (lit 0.63273879 * r2) in
  r1 <- getattr "z1_1" ;; r2 <- getattr "z2_1" ;;
  let output := lit 1.00000000 * x + lit 2.00000000 * r1 + lit 1.00000000 * r2 in
  r1 <- getattr "z1_1" ;; setattr "z2_1" r1 ;;
  setattr "z1_1" x ;;
  ret output.

(** [def reset(self)] *)
Definition reset : Meth T unit :=
  setattr "z1_0" (lit 0.0) ;;
  setattr "z2_0" (lit 0.0) ;;
  setattr "z1_1" (lit 0.0) ;;
  setattr "z2_1" (lit 0.0).

(** [MyFilter()]: a new object with an empty dictionary, then [__init__]. *)
Definition new : instance T := final_state (__init__ ∅).

(** *** The state registers of an instance *)

Record registers := Registers { z1_0 : T; z2_0 : T; z1_1 : T; z2_1 : T }.

(** The registers held by an instance, when all four attributes exist. *)
Definition regs (self : instance T) : option registers :=
  match self !! "z1_0", self !! "z2_0", self !! "z1_1", self !! "z2_1" with
  | Some a, Some b, Some c, Some d => Some (Registers a b c d)
  | _, _, _, _ => None
  end.

(** The instance [self] with its four registers assigned from [r]. *)
Definition store (r : registers) (self : instance T) : instance T :=
  <["z1_1" := z1_1 r]> (<["z2_1" := z2_1 r]>
    (<["z1_0" := z1_0 r]> (<["z2_0" := z2_0 r]> self))).

Definition zeroed : registers :=
  Registers (lit 0.0) (lit 0.0) (lit 0.0) (lit 0.0).

(** The names of the state attributes. *)
Definition state_attrs : gset string := {["z1_0"; "z2_0"; "z1_1"; "z2_1"]}.

(** *** The cascade of second-order sections, as the design document words it *)

(** Coefficients of one section ([a0] is implicitly 1). *)
Record biquad := Biquad { b0 : T; b1 : T; b2 : T; a1 : T; a2 : T }.

(** Direct form II: [x = input - a1*z1 - a2*z2],
    [output = b0*x + b1*z1 + b2*z2], then [z2 <- z1; z1 <- x].
    The state of a section is the pair [(z1, z2)]. *)
Definition biquad_step (c : biquad) (z : T * T) (input : T) : T * (T * T) :=
  let '(z1, z2) := z in
  let x := input - a1 c * z1 - a2 c * z2 in
  let output := b0 c * x + b1 c * z1 + b2 c * z2 in
  (output, (x, z1)).

(** Sections are applied in order; each one is fed the output of the
    previous one, and the last output is the result. *)
Fixpoint cascade (cs : list biquad) (zs : list (T * T)) (input : T)
  : T * list (T * T) :=
  match cs, zs with
  | c :: cs', z :: zs' =>
      let '(output, z') := biquad_step c z input in
      let '(result, zs'') := cascade cs' zs' output in
      (result, z' :: zs'')
  | _, _ => (input, [])
  end.

(** The coefficient literals of [process], section by section. *)
Definition sections : list biquad :=
  [ Biquad (lit 0.00482434) (lit 0.00964869) (lit 0.00482434)
           (- lit 1.04859958) (lit 0.29614036);
    Biquad (lit 1.00000000) (lit 2.00000000) (lit 1.00000000)
           (- lit 1.32091343) (lit 0.63273879) ].

Definition section_states (r : registers) : list (T * T) :=
  [ (z1_0 r, z2_0 r); (z1_1 r, z2_1 r) ].

Definition registers_of_states (zs : list (T * T)) : option registers :=
  match zs with
  | [ (a, b); (c, d) ] => Some (Registers a b c d)
  | _ => None
  end.

(** One call of [process] seen on the registers alone. *)
Definition step (r : registers) (input : T) : T * registers :=
  let '(output, zs) := cascade sections (section_states r) input in
  (output, default r (registers_of_states zs)).

(** Successive calls of [process], seen on the registers alone. *)
Fixpoint steps (r : registers) (xs : list T) : list T * registers :=
  match xs with
  | [] => ([], r)
  | x :: xs' =>
      let '(y, r') := step r x in
      let '(ys, r'') := steps r' xs' in
      (y :: ys, r'')
  end.

(** *** Driving an instance *)

(** The two public operations, as a caller invokes them. *)
Inductive op := Process (input_sample : T) | Reset.

Definition invoke (o : op) : Meth T (option T) :=
  match o with
  | Process x => y <- process x ;; ret (Some y)
  | Reset => reset ;; ret None
  end.

(** Successive calls on one instance; stops at the first exception. *)
Fixpoint drive (ops : list op) : Meth T (list (option T)) :=
  match ops with
  | [] => ret []
  | o :: ops' => y <- invoke o ;; ys <- drive ops' ;; ret (y :: ys)
  end.

(** Feeding an input sequence through [process]. *)
Fixpoint feed (xs : list T) : Meth T (list T) :=
  match xs with
  | [] => ret []
  | x :: xs' => y <- process x ;; ys <- feed xs' ;; ret (y :: ys)
  end.

(** *** Several instances in one heap *)

(** [f = MyFilter()]: the new object gets an identity not in use. *)
Definition construct (h : heap T) : nat * heap T :=
  let l := fresh (dom h) in (l, <[l := new]> h).

(** [h[l].op(...)]: no result for an identity that names no object. *)
Definition call (l : nat) (o : op) (h : heap T)
  : option (outcome (heap T) (option T)) :=
  match h !! l with
  | None => None
  | Some self =>
      Some match invoke o self with
           | Returns y self' => Returns y (<[l := self']> h)
           | Raises e self' => Raises e (<[l := self']> h)
           end
  end.

(** A schedule of calls across instances; [None] as soon as a call has no
    result or raises.  Each output is tagged with the instance it is from. *)
Fixpoint run (tr : list (nat * op)) (h : heap T)
  : option (list (nat * option T) * heap T) :=
  match tr with
  | [] => Some ([], h)
  | (l, o) :: tr' =>
      match call l o h with
      | Some (Returns y h') =>
          match run tr' h' with
          | Some (ys, h'') => Some ((l, y) :: ys, h'')
          | None => None
          end
      | _ => None
      end
  end.

(** The schedule that feeds an input sequence to the instance [l], and the
    outputs it is expected to give back. *)
Definition feed_schedule (l : nat) (xs : list T) : list (nat * op) :=
  map (fun x => (l, Process x)) xs.

Definition outputs_of (l : nat) (ys : list T) : list (nat * option T) :=
  map (fun y => (l, Some y)) ys.

(** Every object of the heap is a filter instance with its four registers. *)
Definition filters (h : heap T) : Prop :=
  forall l self, h !! l = Some self -> is_Some (regs self).

(** The part of a schedule, or of its outputs, that concerns [l]. *)
Definition only {A} (l : nat) (tr : list (nat * A)) : list A :=
  omap (fun e => if decide (e.1 = l) then Some e.2 else None) tr.

End Class.
End MyFilter.


Arguments MyFilter.registers T : clear implicits.
Arguments MyFilter.biquad T : clear implicits.
Arguments MyFilter.op T : clear implicits.

(** *** The header of the artifact (lines 1-3 of [src/my_filter.py]) *)

Inductive family := lowpass | highpass | bandpass | bandstop.

Record header := Header {
  hdr_family : family;
  hdr_rate : Q;
  hdr_freq : Q;
  hdr_order : nat
}.

(** "Low-Pass Butterworth IIR digital filter; Sampling rate: 500.0 Hz,
    frequency: 50.0 Hz; Filter is order 4". *)
Definition artifact_header : header := Header lowpass 500.0 50.0 4.

(** Modelled from the spec: the design kernel that chooses the number of
    sections (the generator script the GUI launches) is not among the sources.
    The design document fixes the count at [ceil(order/2)] for low-pass and
    high-pass designs and at [order] for band-pass and band-stop designs. *)
Definition section_count (f : family) (order : nat) : nat :=
  match f with
  | lowpass | highpass => Z.to_nat (Qceiling (inject_Z (Z.of_nat order) / 2))
  | bandpass | bandstop => order
  end.

(** Modelled from the spec: the analog prototype of the same kernel.  "Pole
    k (0-indexed) has angle π·(2k+order+1)/(2·order) from the positive real
    axis, magnitude 1"; [pole_angle order k] is that angle in units of
    [π/(2·order)]. *)
Definition pole_angle (order k : nat) : nat := 2 * k + order + 1.

(** Modelled from the spec: the prototype is "conjugate-symmetric".  Two
    poles of magnitude 1 are conjugate when their angles add up to a full
    turn, [4·order] units; a pole on the real axis is its own conjugate. *)
Definition conjugate (order j k : nat) : bool :=
  (pole_angle order j + pole_angle order k =? 4 * order)%nat.

(** Modelled from the spec: the packing of the poles of a low-pass or
    high-pass design into sections.  The two frequency transforms and the
    bilinear transform map the prototype poles one to one and keep conjugate
    pairs; "each section's denominator comes from one conjugate pole pair",
    and "an odd lowpass/highpass order yields one first-order section".
    There is one section for each pole of the closed upper half-plane (angle
    at most [π], that is [2·order] units), listed with its conjugate. *)
Definition pole_pairs (order : nat) : list (nat * nat) :=
  map (fun k => (k, order - 1 - k)%nat)
      (List.filter (fun k => pole_angle order k <=? 2 * order)%nat
                   (seq 0 order)).

(** The reference cascade of the design document for
    [family=lowpass, rate=500.0, order=4, freq=50.0]: numerators, and the
    recursion [x = input + 1.04859958*z1 - 0.29614036*z2] (resp.
    [x = input + 1.32091343*z1 - 0.63273879*z2]) read as [a1], [a2]. *)
Definition reference_cascade : list (MyFilter.biquad Q) :=
  [ MyFilter.Biquad 0.00482434 0.00964869 0.00482434 (-1.04859958) 0.29614036;
    MyFilter.Biquad 1.0 2.0 1.0 (-1.32091343) 0.63273879 ]%Q.

Definition tolerance : Q := 0.000001.

(** Coefficient-wise agreement of two sections within [tol]. *)
Definition close_to (tol : Q) (c c' : MyFilter.biquad Q) : Prop :=
  (Qabs (MyFilter.b0 c - MyFilter.b0 c') <= tol /\
   Qabs (MyFilter.b1 c - MyFilter.b1 c') <= tol /\
   Qabs (MyFilter.b2 c - MyFilter.b2 c') <= tol /\
   Qabs (MyFilter.a1 c - MyFilter.a1 c') <= tol /\
   Qabs (MyFilter.a2 c - MyFilter.a2 c') <= tol)%Q.

(** *** Poles and steady-state gain of a section *)

(** [z^2 + a1*z + a2] at the complex number [re + i*im], as (real part,
    imaginary part), with the coefficients taken as exact rationals. *)
Definition char_poly (c : MyFilter.biquad Q) (re im : R) : R * R :=
  (re * re - im * im + Q2R (MyFilter.a1 c) * re + Q2R (MyFilter.a2 c),
   2 * re * im + Q2R (MyFilter.a1 c) * im)%R.

Definition is_pole (c : MyFilter.biquad Q) (re im : R) : Prop :=
  char_poly c re im = (0%R, 0%R).

Definition magnitude (re im : R) : R := R_sqrt.sqrt (re * re + im * im).

(** Gain of one section at DC ([z = 1]). *)
Definition section_dc_gain (c : MyFilter.biquad Q) : Q :=
  (MyFilter.b0 c + MyFilter.b1 c + MyFilter.b2 c)
  / (1 + MyFilter.a1 c + MyFilter.a2 c).

Definition dc_gain (cs : list (MyFilter.biquad Q)) : Q :=
  fold_right (fun c g => section_dc_gain c * g)%Q 1%Q cs.

(** Output of the [n+1]-th call of [process] on a new instance driven with
    the constant input [1.0]. *)
Definition unit_step_response {T} `{Scalar T} (n : nat) : option T :=
  match MyFilter.feed (replicate (S n) (lit 1.0)) MyFilter.new with
  | Returns ys _ => last ys
  | Raises _ _ => None
  end.

(** The state that the constant input [1] leaves in place, in exact
    arithmetic: both registers of a section hold [input / (1 + a1 + a2)]. *)
Definition steady_state : MyFilter.registers Q :=
  let w0 := (1 / (1 + (- 1.04859958) + 0.29614036))%Q in
  let y0 := ((0.00482434 + 0.00964869 + 0.00482434) * w0)%Q in
  let w1 := (y0 / (1 + (- 1.32091343) + 0.63273879))%Q in
  MyFilter.Registers w0 w0 w1 w1.

(** Register-wise equality of rational states. *)
Definition regs_eq (r r' : MyFilter.registers Q) : Prop :=
  (MyFilter.z1_0 r == MyFilter.z1_0 r' /\
   MyFilter.z2_0 r == MyFilter.z2_0 r' /\
   MyFilter.z1_1 r == MyFilter.z1_1 r' /\
   MyFilter.z2_1 r == MyFilter.z2_1 r')%Q.

(** *** Distance to the steady state, in exact arithmetic *)

(** The quadratic form [e1^2 + a1*e1*e2 + a2*e2^2] of each section: the
    squared modulus of [e1 - p*e2] for a pole [p] of the section. *)
Definition energy0 (e1 e2 : Q) : Q :=
  (e1 * e1 + (- 1.04859958) * e1 * e2 + 0.29614036 * e2 * e2)%Q.

Definition energy1 (f1 f2 : Q) : Q :=
  (f1 * f1 + (- 1.32091343) * f1 * f2 + 0.63273879 * f2 * f2)%Q.

(** Deviation of the output of section 0 from its steady value, from the
    deviations [e1], [e2] of its registers. *)
Definition drive0 (e1 e2 : Q) : Q :=
  (0.00482434 * (1.04859958 * e1 - 0.29614036 * e2)
   + 0.00964869 * e1 + 0.00482434 * e2)%Q.

(** Weighted squared distance of the registers to [steady_state]. *)
Definition energy (r : MyFilter.registers Q) : Q :=
  (energy1 (MyFilter.z1_1 r - MyFilter.z1_1 steady_state)
           (MyFilter.z2_1 r - MyFilter.z2_1 steady_state)
   + (1 # 5) * energy0 (MyFilter.z1_0 r - MyFilter.z1_0 steady_state)
                       (MyFilter.z2_0 r - MyFilter.z2_0 steady_state))%Q.

(** The registers of a new binary64 instance after 159 calls of [process]
    with input [1.0]. *)
Definition settled : MyFilter.registers float :=
  (MyFilter.steps MyFilter.zeroed (replicate 159 (lit 1.0))).2.

(** [|f - 1.0| <= 1e-3] for a double [f], on exact values. *)
Definition near_unity (f : float) : Prop :=
  match float_to_Q f with
  | Some q => (Qabs (q - 1) <= 0.001)%Q
  | None => False
  end.

(** ** [src/GUI.py]: the language selector and the extension lookup *)

Module GUI.
Local Open Scope string_scope.

(** [str.lower()] on ASCII text. *)
Definition lower_char (c : ascii) : ascii :=
  let n := nat_of_ascii c in
  if (65 <=? n)%nat && (n <=? 90)%nat then ascii_of_nat (n + 32) else c.

Fixpoint lower (s : string) : string :=
  match s with
  | EmptyString => EmptyString
  | String c s' => String (lower_char c) (lower s')
  end.


(** The dictionary literal of [get_file_extension]. *)
Definition extensions : gmap string string :=
  list_to_map
    [("python", ".py"); ("javascript", ".js"); ("typescript", ".ts");
     ("c++", ".cpp"); ("java", ".java")].

(** [def get_file_extension(self)], with the selector's current text as the
    argument; [extensions.get(language, '.py')]. *)
Definition get_file_extension (currentText : string) : string :=
  let language := lower currentText in
  default ".py" (extensions !! language).


End GUI.

(** ** The code emitter *)

Module Emitter.
Local Open Scope string_scope.




End Emitter.

(** *** Not-a-number in binary64 *)

(** A state whose first register of each section is NaN. *)
Definition poisoned (r : MyFilter.registers float) : Prop :=
  MyFilter.z1_0 r = nan /\ MyFilter.z1_1 r = nan.

(** ** Text *)

(** A Python [str] is a sequence of Unicode code points.  What the user
    types into a line edit, and whatever is built from it, is kept as such.
    The literals of the source and the items of the two selectors are made
    of ASCII characters: they are written as Rocq strings and turned into
    code points by [txt]. *)
Abbreviation str := (list N).

Fixpoint txt (s : string) : str :=
  match s with
  | EmptyString => []
  | String c s' => N_of_ascii c :: txt s'
  end.

(** ** [src/GUI.py]: the worker thread *)

Module FilterThread.
Local Open Scope string_scope.

(** What [subprocess.run(self.command, capture_output=True, text=True)]
    gives back: a completed process with its return code and captured
    standard error, or an exception [e], kept as [str(e)]. *)
Inductive subprocess_result :=
  | Completed (returncode : Z) (stderr : str)
  | Exception (message : str).

(** The two signals of the thread, with their payload. *)
Inductive signal :=
  | finished (message : str)
  | error (message : str).

(** [def run(self)], with [subprocess.run] as the environment. *)
Definition run (subprocess_run : list str -> subprocess_result)
  (command : list str) : signal :=
  match subprocess_run command with
  | Completed returncode stderr =>
      if (returncode =? 0)%Z then finished (txt "Filter generated successfully!")
      else error (txt "Error: " ++ stderr)%list
  | Exception message => error (txt "Error: " ++ message)%list
  end.

End FilterThread.

(** ** [src/GUI.py]: the main window *)

Module ModernFilterGUI.
Local Open Scope string_scope.

(** [str.isspace] on one code point.  [str.strip()] removes the white space
    of Unicode: U+0009 to U+000D, U+001C to U+0020, U+0085, U+00A0, U+1680,
    U+2000 to U+200A, U+2028, U+2029, U+202F, U+205F and U+3000. *)
Definition is_space (c : N) : bool :=
  ((9 <=? c) && (c <=? 13) || (28 <=? c) && (c <=? 32)
   || (c =? 133) || (c =? 160) || (c =? 5760)
   || (8192 <=? c) && (c <=? 8202)
   || (c =? 8232) || (c =? 8233) || (c =? 8239) || (c =? 8287)
   || (c =? 12288))%N.

Fixpoint lstrip (s : str) : str :=
  match s with
  | [] => []
  | c :: s' => if is_space c then lstrip s' else s
  end.

Fixpoint rstrip (s : str) : str :=
  match s with
  | [] => []
  | c :: s' =>
      match rstrip s' with
      | [] => if is_space c then [] else [c]
      | t => c :: t
      end
  end.

(** [s.strip()] *)
Definition strip (s : str) : str := lstrip (rstrip s).

(** Truth value of a text in a condition: [if s:]. *)
Definition nonempty (s : str) : bool :=
  match s with
  | [] => false
  | _ :: _ => true
  end.

(** The prefixes ["✓ "] and ["✗ "] of the status lines: U+2713, resp.
    U+2717, and a space. *)
Definition check_mark : str := [10003; 32]%N.
Definition ballot_x : str := [10007; 32]%N.

(** [self.tooltips], the dictionary literal of [__init__]. *)
Definition tooltips : gmap string string :=
  list_to_map
    [
     ("filter_type",
      "Lowpass: Blocks high frequencies, smooths signals
Highpass: Blocks low frequencies, removes DC components
Bandpass: Allows only frequencies in a specific range
Bandstop: Blocks frequencies in a specific range");
     ("sampling_rate",
      "The rate at which your signal is sampled (samples per second).
Must be at least twice the highest frequency of interest (Nyquist theorem).");
     ("filter_order",
      "Higher order = steeper rolloff but more computation.
Typical values: 2-8 for most applications.");
     ("critical_freq_lowpass",
      "Corner frequency where the filter response is -3dB.
Frequencies above this will be attenuated.");
     ("critical_freq_highpass",
      "Corner frequency where the filter response is -3dB.
Frequencies below this will be attenuated.");
     ("center_freq",
      "Center frequency of the pass/stop band.
For bandpass: frequencies around this will pass through.
For bandstop: frequencies around this will be blocked.");
     ("bandwidth",
      "Total width of the frequency band.
The band extends ±(width/2) around the center frequency.");
     ("language",
      "Programming language for the generated filter code.");
     ("class_name",
      "Name of the generated filter class.");
     ("file_name",
      "Output filename (extension will be added automatically).");
     ("plot",
      "Generate a frequency response plot to visualize filter characteristics.")
    ].

(** The keys with which the window subscripts [self.tooltips], in source
    order: nine while the panels are built, three in
    [on_filter_type_changed]. *)
Definition tooltip_uses : list string :=
  ["filter_type"; "sampling_rate"; "filter_order"; "critical_freq_lowpass";
   "bandwidth"; "language"; "class_name"; "file_name"; "plot";
   "center_freq"; "critical_freq_lowpass"; "critical_freq_highpass"].

(** What the user has entered: the values the methods read from the input
    widgets. *)
Record inputs := Inputs {
  filter_type : string;       (* self.filter_type.currentText() *)
  sampling_rate : float;      (* self.sampling_rate.value() *)
  filter_order : Z;           (* self.filter_order.value() *)
  critical_freq : float;      (* self.critical_freq.value() *)
  bandwidth : float;          (* self.bandwidth.value() *)
  class_name : str;           (* self.class_name.text() *)
  output_language : string;   (* self.output_language.currentText() *)
  file_name : str;            (* self.file_name.text() *)
  generate_plot : bool        (* self.generate_plot.isChecked() *)
}.

(** The frequency row and the bandwidth row of the form. *)
Record frequency_rows := FrequencyRows {
  freq_label : string;             (* text of self.freq_label *)
  freq_info : string;              (* tool tip of self.freq_info *)
  bandwidth_label_visible : bool;
  bandwidth_visible : bool;
  bandwidth_info_visible : bool
}.

(** [def on_filter_type_changed(self)]; [None] stands for the [KeyError] of
    a failed subscript of [self.tooltips]. *)
Definition on_filter_type_changed (i : inputs) (rows : frequency_rows)
  : option frequency_rows :=
  let filter_type := filter_type i in
  if bool_decide (filter_type ∈ ["bandpass"; "bandstop"]) then
    tip ← tooltips !! "center_freq";
    Some (FrequencyRows "Center Frequency (Hz)" tip true true true)
  else
    if bool_decide (filter_type = "lowpass") then
      tip ← tooltips !! "critical_freq_lowpass";
      Some (FrequencyRows "Cutoff Frequency (Hz)" tip false false false)
    else
      tip ← tooltips !! "critical_freq_highpass";
      Some (FrequencyRows "Cutoff Frequency (Hz)" tip false false false).

(** The generate button, the status log, the code preview and the error
    dialogs shown so far. *)
Record status := Status {
  generate_button_enabled : bool;
  generate_button_text : string;
  status_text : list str;          (* paragraphs of self.status_text *)
  code_preview : str;
  message_boxes : list (string * str)   (* QMessageBox.critical: title, text *)
}.

Definition setEnabled (b : bool) (s : status) : status :=
  Status b (generate_button_text s) (status_text s) (code_preview s)
         (message_boxes s).

Definition setButtonText (t : string) (s : status) : status :=
  Status (generate_button_enabled s) t (status_text s) (code_preview s)
         (message_boxes s).

(** [self.status_text.clear()] *)
Definition clear (s : status) : status :=
  Status (generate_button_enabled s) (generate_button_text s) []
         (code_preview s) (message_boxes s).

(** [self.status_text.append(line)] *)
Definition append (line : str) (s : status) : status :=
  Status (generate_button_enabled s) (generate_button_text s)
         (status_text s ++ [line])%list (code_preview s) (message_boxes s).

(** [self.code_preview.setText(code)] *)
Definition setPreview (code : str) (s : status) : status :=
  Status (generate_button_enabled s) (generate_button_text s) (status_text s)
         code (message_boxes s).

(** [QMessageBox.critical(self, title, text)] *)
Definition critical (title : string) (text : str) (s : status) : status :=
  Status (generate_button_enabled s) (generate_button_text s) (status_text s)
         (code_preview s) (message_boxes s ++ [(title, text)])%list.

(** What the user can do to the window while the worker runs.  Only the
    generate button is disabled: every input widget can be changed, and the
    status log and the code preview, two text boxes that are not read-only,
    can be typed into. *)
Record edits := Edits {
  inputs_then : inputs;                (* the input widgets at completion *)
  retype_log : list str -> list str;
  retype_preview : str -> str
}.

Definition edit (e : edits) (s : status) : status :=
  Status (generate_button_enabled s) (generate_button_text s)
         (retype_log e (status_text s)) (retype_preview e (code_preview s))
         (message_boxes s).

(** What [open(filepath, 'r')] followed by [f.read()] gives. *)
Inductive file_read :=
  | Content (code : str)
  | FileNotFoundError
  | OtherError (message : str).

Section Environment.
(** [sys.executable], the path of [filter_gen.py] beside the GUI script,
    [str] on the values of the spin boxes, the file system. *)
Variables (executable script_path : str).
Variables (str_float : float -> str) (str_int : Z -> str).
Variables (read_file : str -> file_read) (path_exists : str -> bool).
Variable subprocess_run : list str -> FilterThread.subprocess_result.

(** [def build_command(self)] *)
Definition build_command (i : inputs) : list str :=
  let cmd_parts :=
    [executable; script_path;
     txt "--type"; txt (filter_type i);
     txt "--rate"; str_float (sampling_rate i);
     txt "--order"; str_int (filter_order i);
     txt "--freq"; str_float (critical_freq i)] in
  let cmd_parts :=
    if bool_decide (filter_type i ∈ ["bandpass"; "bandstop"])
    then (cmd_parts ++ [txt "--width"; str_float (bandwidth i)])%list
    else cmd_parts in
  let cmd_parts :=
    if nonempty (strip (class_name i))
    then (cmd_parts ++ [txt "--name"; strip (class_name i)])%list
    else cmd_parts in
  let language := GUI.lower (output_language i) in
  let cmd_parts := (cmd_parts ++ [txt "--language"; txt language])%list in
  let filename := strip (file_name i) in
  let cmd_parts :=
    if nonempty filename then
      let extension := GUI.get_file_extension (output_language i) in
      (cmd_parts ++ [txt "--out"; (filename ++ txt extension)%list])%list
    else cmd_parts in
  let cmd_parts :=
    if generate_plot i then
      let plot_filename :=
        if nonempty filename then filename else txt (filter_type i) in
      (cmd_parts
       ++ [txt "--plot"; (plot_filename ++ txt "_response.png")%list])%list
    else cmd_parts in
  cmd_parts.

(** [def generate_filter(self)]: the new status and the command handed to
    the worker thread. *)
Definition generate_filter (i : inputs) (s : status) : status * list str :=
  let s := setEnabled false s in
  let s := setButtonText "Generating..." s in
  let s := clear s in
  let s := append (txt "Generating filter...") s in
  let command := build_command i in
  (s, command).

(** [def on_generation_finished(self, message)]; [i] is what the input
    widgets hold when the handler runs. *)
Definition on_generation_finished (message : str) (i : inputs) (s : status)
  : status :=
  let s := setEnabled true s in
  let s := setButtonText "Generate Filter" s in
  let s := append (check_mark ++ message)%list s in
  let filename := strip (file_name i) in
  let s :=
    if nonempty filename then
      let extension := GUI.get_file_extension (output_language i) in
      let filepath := (filename ++ txt extension)%list in
      match read_file filepath with
      | Content code =>
          let s := setPreview code s in
          append (txt "Generated file: " ++ filepath)%list s
      | FileNotFoundError =>
          append (txt "Warning: Generated file not found for preview") s
      | OtherError e =>
          append (txt "Warning: Error reading generated file: " ++ e)%list s
      end
    else s in
  if generate_plot i then
    let plot_filename :=
      if nonempty filename then filename else txt (filter_type i) in
    let plot_path := (plot_filename ++ txt "_response.png")%list in
    if path_exists plot_path
    then append (txt "Generated plot: " ++ plot_path)%list s
    else s
  else s.

(** [def on_generation_error(self, error_message)] *)
Definition on_generation_error (error_message : str) (s : status) : status :=
  let s := setEnabled true s in
  let s := setButtonText "Generate Filter" s in
  let s := append (ballot_x ++ error_message)%list s in
  critical "Error" error_message s.

(** A click on the generate button with the inputs [i], the run of the
    worker thread on the command built at the click, what the user does to
    the window meanwhile, and the handler of the signal the thread emits:
    [generate_filter] connects [finished] to [on_generation_finished] and
    [error] to [on_generation_error].  The success handler reads the input
    widgets again, as they are at completion. *)
Definition generate_cycle (i : inputs) (e : edits) (s : status) : status :=
  let '(s, command) := generate_filter i s in
  let signal := FilterThread.run subprocess_run command in
  let s := edit e s in
  match signal with
  | FilterThread.finished message =>
      on_generation_finished message (inputs_then e) s
  | FilterThread.error message => on_generation_error message s
  end.

End Environment.

(** Argument vectors: the flag/value pairs after the program and the script. *)
Fixpoint flag_values (argv : list str) : list (str * str) :=
  match argv with
  | k :: v :: rest => (k, v) :: flag_values rest
  | _ => []
  end.

(** The flags of the generator script, in the order [build_command] can
    emit them. *)
Definition flags : list str :=
  txt <$> ["--type"; "--rate"; "--order"; "--freq"; "--width"; "--name";
           "--language"; "--out"; "--plot"].

(** The value that follows the flag [f] in an argument vector, if any. *)
Definition argument (argv : list str) (f : string) : option str :=
  (list_to_map (flag_values (drop 2 argv)) : gmap str str) !! txt f.

(** The test [filter_type in ['bandpass', 'bandstop']]. *)
Definition is_band (i : inputs) : bool :=
  bool_decide (filter_type i ∈ ["bandpass"; "bandstop"]).

(** The values of the dictionary of [get_file_extension]. *)
Definition known_extensions : list string :=
  [".py"; ".js"; ".ts"; ".cpp"; ".java"].

(** A text that is not empty and neither starts nor ends with white space. *)
Definition trimmed (s : str) : Prop :=
  s <> [] /\
  forall c, head s = Some c \/ last s = Some c -> is_space c = false.

(** A filled-in form: a band-pass request, with white space around the two
    free texts (a space, a no-break space U+00A0, an em space U+2003) and a
    capital in the language. *)
Definition sample_inputs : inputs :=
  Inputs "bandpass" 500 4 50 4
         (32%N :: txt "MyFilter" ++ [160%N])%list "Python"
         (8195%N :: txt "my_filter" ++ [32%N])%list true.

End ModernFilterGUI.

(** * Properties *)

(** ** One instance *)

(** Lookups through a chain of assignments to literal attribute names. *)
Ltac attrs :=
  repeat first [ rewrite lookup_insert_eq
               | rewrite lookup_insert_ne by discriminate ].

(** Two chains of assignments to the four state attributes agree. *)
Ltac same_attrs :=
  let k := fresh "k" in
  apply map_eq; intros k;
  destruct (decide (k = "z1_1"%string)) as [->|]; [attrs; reflexivity|];
  destruct (decide (k = "z2_1"%string)) as [->|]; [attrs; reflexivity|];
  destruct (decide (k = "z1_0"%string)) as [->|]; [attrs; reflexivity|];
  destruct (decide (k = "z2_0"%string)) as [->|]; [attrs; reflexivity|];
  rewrite !lookup_insert_ne by congruence; reflexivity.

Section Instance.
Context {T : Type} `{Scalar T}.
Import MyFilter.
Local Open Scope string_scope.

Lemma regs_store (r : registers T) (self : instance T) :
  regs (store r self) = Some r.
Proof.
  destruct r; unfold regs, store; simpl. attrs. reflexivity.
Qed.

Lemma store_regs (r : registers T) (self : instance T) :
  regs self = Some r -> store r self = self.
Proof.
  unfold regs, store.
  destruct (self !! "z1_0") as [a|] eqn:Ha; [|discriminate].
  destruct (self !! "z2_0") as [b|] eqn:Hb; [|discriminate].
  destruct (self !! "z1_1") as [c|] eqn:Hc; [|discriminate].
  destruct (self !! "z2_1") as [d|] eqn:Hd; [|discriminate].
  intros [= <-]; simpl.
  apply map_eq; intros k.
  repeat (rewrite lookup_insert; case_decide; [subst k; congruence|]).
  reflexivity.
Qed.

Lemma store_store (r r' : registers T) (self : instance T) :
  store r' (store r self) = store r' self.
Proof.
  unfold store. same_attrs.
Qed.

Lemma not_state_attr (k : string) :
  k ∉ state_attrs ->
  "z1_0" <> k /\ "z2_0" <> k /\ "z1_1" <> k /\ "z2_1" <> k.
Proof.
  unfold state_attrs.
  rewrite !elem_of_union, !elem_of_singleton. intuition congruence.
Qed.

Lemma store_frame (r : registers T) (self : instance T) (k : string) :
  k ∉ state_attrs -> store r self !! k = self !! k.
Proof.
  intros (? & ? & ? & ?)%not_state_attr. unfold store.
  rewrite !lookup_insert_ne by assumption. reflexivity.
Qed.

Lemma dom_store (r : registers T) (self : instance T) :
  dom (store r self) = state_attrs ∪ dom self.
Proof.
  unfold store, state_attrs.
  rewrite !dom_insert_L. apply set_eq; intros k.
  rewrite !elem_of_union, !elem_of_singleton. tauto.
Qed.

(** The body of a method, run step by step on a chain of assignments. *)
Ltac run_body :=
  repeat (progress (cbv beta iota zeta delta [bind getattr setattr ret]; attrs)).

Lemma init_store (self : instance T) :
  __init__ self = Returns tt (store zeroed self).
Proof.
  unfold __init__, store, zeroed; run_body; simpl.
  f_equal. same_attrs.
Qed.

Lemma reset_store (self : instance T) :
  reset self = Returns tt (store zeroed self).
Proof. exact (init_store self). Qed.

Lemma new_store : new = store zeroed (∅ : instance T).
Proof. unfold new. rewrite init_store. reflexivity. Qed.

Lemma process_store (x : T) (r : registers T) (self : instance T) :
  process x (store r self)
  = Returns (step r x).1 (store (step r x).2 self).
Proof.
  destruct r as [a b c d].
  unfold process, store, step; simpl. run_body.
  f_equal. same_attrs.
Qed.

Lemma feed_store (xs : list T) (r : registers T) (self : instance T) :
  feed xs (store r self)
  = Returns (steps r xs).1 (store (steps r xs).2 self).
Proof.
  revert r; induction xs as [|x xs IH]; intros r; cbn [feed steps].
  - reflexivity.
  - unfold bind at 1. rewrite process_store.
    destruct (step r x) as [y r'] eqn:E; cbn [fst snd].
    unfold bind at 1. rewrite IH.
    destruct (steps r' xs) as [ys r'']; reflexivity.
Qed.

Lemma invoke_store (o : op T) (r : registers T) (self : instance T) :
  exists y r', invoke o (store r self) = Returns y (store r' self).
Proof.
  destruct o as [x|]; simpl; unfold bind, ret.
  - rewrite process_store. eauto.
  - rewrite reset_store, store_store. eauto.
Qed.

Lemma invoke_filter (o : op T) (self : instance T) :
  is_Some (regs self) ->
  exists y self', invoke o self = Returns y self' /\ is_Some (regs self').
Proof.
  intros [r Hr]. rewrite <- (store_regs r self Hr).
  destruct (invoke_store o r self) as (y & r' & E).
  exists y, (store r' self). rewrite E, regs_store. eauto.
Qed.

Lemma process_frame_any (x : T) (self : instance T) (k : string) :
  k ∉ state_attrs -> final_state (process x self) !! k = self !! k.
Proof.
  intros (? & ? & ? & ?)%not_state_attr. unfold process.
  destruct (self !! "z1_0") as [a|] eqn:Ha;
  destruct (self !! "z2_0") as [b|] eqn:Hb;
  destruct (self !! "z1_1") as [c|] eqn:Hc;
  destruct (self !! "z2_1") as [d|] eqn:Hd;
  repeat (progress (cbv beta iota zeta delta [bind getattr setattr ret];
                    attrs; rewrite ?Ha, ?Hb, ?Hc, ?Hd));
  cbn [final_state]; rewrite ?lookup_insert_ne by assumption; reflexivity.
Qed.

Lemma process_cascade (x : T) (r : registers T) (self : instance T) :
  exists r',
    registers_of_states (cascade sections (section_states r) x).2 = Some r' /\
    process x (store r self)
      = Returns (cascade sections (section_states r) x).1 (store r' self).
Proof.
  rewrite process_store. destruct r as [a b c d].
  eexists; split; reflexivity.
Qed.

(** C2. For every input sample and every value of the state registers, one
    call of [process] is the cascade, in order, of the direct-form-II
    recursion over the embedded coefficients: each section computes
    [x = input - a1*z1 - a2*z2] and [output = b0*x + b1*z1 + b2*z2], shifts
    [z2 <- z1; z1 <- x], feeds its output to the next section, and the last
    output is returned. *)
Theorem process_direct_form_II
  (input_sample : T) (r : registers T) (self : instance T) :
  exists r',
    registers_of_states (cascade sections (section_states r) input_sample).2
      = Some r' /\
    process input_sample (store r self)
      = Returns (cascade sections (section_states r) input_sample).1
                (store r' self).
Proof.
  rewrite process_store. unfold step.
  destruct r as [z10 z20 z11 z21]; cbn [section_states sections cascade].
  unfold biquad_step; cbn [a1 a2 b0 b1 b2 fst snd registers_of_states].
  eexists. split; reflexivity.
Qed.

(** C3. [reset] zeroes the four registers of any instance, touches nothing
    else, leaves [process] the cascade over the same coefficients, and a
    replay of any input sequence after it gives the outputs of a newly
    constructed instance. *)
Theorem reset_then_replay (self : instance T) (xs : list T) :
  exists self',
    reset self = Returns tt self' /\
    regs self' = Some zeroed /\
    (forall k, k ∉ state_attrs -> self' !! k = self !! k) /\
    (forall x, exists r',
       registers_of_states (cascade sections (section_states zeroed) x).2
         = Some r' /\
       process x self'
         = Returns (cascade sections (section_states zeroed) x).1
                   (store r' self')) /\
    exists ys,
      returned (feed xs self') = Some ys /\
      returned (feed xs new) = Some ys.
Proof.
  exists (store zeroed self). rewrite reset_store.
  split; [reflexivity|]. split; [apply regs_store|].
  split; [intros k Hk; apply store_frame, Hk|]. split.
  - intros x.
    destruct (process_cascade x zeroed self) as (r' & E & P).
    exists r'. rewrite store_store. auto.
  - exists (steps zeroed xs).1.
    rewrite new_store, !feed_store. split; reflexivity.
Qed.

Lemma drive_store (ops : list (op T)) (r : registers T) (self : instance T) :
  exists ys r', drive ops (store r self) = Returns ys (store r' self).
Proof.
  revert r; induction ops as [|o ops IH]; intros r; cbn [drive].
  - exists [], r. reflexivity.
  - destruct (invoke_store o r self) as (y & r1 & E).
    destruct (IH r1) as (ys & r2 & E').
    exists (y :: ys), r2. unfold bind. rewrite E, E'. reflexivity.
Qed.

(** C10. A new instance has the four state attributes and no other; a call
    of [process] leaves every other attribute of any instance as it was, and
    does not change the set of attributes of a filter instance; whatever
    operations were called before, [process] remains the cascade over the
    coefficients [sections], which no attribute holds. *)
Theorem process_writes_only_registers :
  dom (new : instance T) = state_attrs /\
  (forall (x : T) (self : instance T) (k : string),
     k ∉ state_attrs -> final_state (process x self) !! k = self !! k) /\
  (forall (x : T) (self : instance T),
     is_Some (regs self) -> dom (final_state (process x self)) = dom self) /\
  (forall (ops : list (op T)) (x : T),
     let self := final_state (drive ops new) in
     dom self = state_attrs /\
     exists r r',
       regs self = Some r /\
       registers_of_states (cascade sections (section_states r) x).2
         = Some r' /\
       process x self
         = Returns (cascade sections (section_states r) x).1 (store r' self)).
Proof.
  assert (D : forall r : registers T,
             dom (store r (∅ : instance T)) = state_attrs).
  { intros r. rewrite dom_store, dom_empty_L. apply set_eq; intros k.
    rewrite elem_of_union, elem_of_empty. tauto. }
  split; [rewrite new_store; apply D|].
  split; [intros x self k Hk; apply process_frame_any, Hk|].
  split.
  - intros x self [r Hr]. rewrite <- (store_regs r self Hr) at 1.
    rewrite process_store; cbn [final_state].
    rewrite dom_store. apply set_eq; intros k.
    rewrite elem_of_union. split; [|tauto].
    intros [Hk|Hk]; [|exact Hk].
    apply elem_of_dom. unfold regs in Hr.
    destruct (self !! "z1_0") eqn:Ha; [|discriminate].
    destruct (self !! "z2_0") eqn:Hb; [|discriminate].
    destruct (self !! "z1_1") eqn:Hc; [|discriminate].
    destruct (self !! "z2_1") eqn:Hd; [|discriminate].
    unfold state_attrs in Hk.
    rewrite !elem_of_union, !elem_of_singleton in Hk.
    destruct Hk as [[[->| ->]| ->]| ->]; eauto.
  - intros ops x. rewrite new_store.
    destruct (drive_store ops zeroed ∅) as (ys & r & E).
    rewrite E; cbn [final_state]. split; [apply D|].
    destruct (process_cascade x r ∅) as (r' & E1 & E2).
    exists r, r'. rewrite regs_store, E2, store_store. auto.
Qed.

End Instance.

(** ** Several instances *)

Section Heap.
Context {T : Type} `{Scalar T}.
Import MyFilter.

Lemma filters_empty : filters (∅ : heap T).
Proof. intros l self E. rewrite lookup_empty in E. discriminate. Qed.

Lemma filters_insert (h : heap T) (l : nat) (self : instance T) :
  filters h -> is_Some (regs self) -> filters (<[l := self]> h).
Proof.
  intros Hh Hs l' self'. rewrite lookup_insert. case_decide.
  - intros [= <-]. exact Hs.
  - apply Hh.
Qed.

Lemma filters_construct (h : heap T) : filters h -> filters (construct h).2.
Proof.
  intros Hh. apply filters_insert; [exact Hh|].
  rewrite new_store, regs_store. eauto.
Qed.

Lemma construct_lookup (h : heap T) :
  (construct h).2 !! (construct h).1 = Some new.
Proof. apply lookup_insert_eq. Qed.

Lemma construct_fresh (h : heap T) : h !! (construct h).1 = None.
Proof. apply not_elem_of_dom, is_fresh. Qed.

Lemma run_feed (l : nat) (xs : list T) (r : registers T)
  (self : instance T) (h : heap T) :
  h !! l = Some (store r self) ->
  run (feed_schedule l xs) h
  = Some (outputs_of l (steps r xs).1, <[l := store (steps r xs).2 self]> h).
Proof.
  revert r h; induction xs as [|x xs IH]; intros r h Hl;
    cbn [feed_schedule outputs_of map run steps].
  - cbn [fst snd]. rewrite insert_id by exact Hl. reflexivity.
  - unfold call. rewrite Hl. cbn [invoke]. unfold bind at 1.
    rewrite process_store. unfold ret.
    destruct (step r x) as [y r'] eqn:E; cbn [fst snd].
    fold (feed_schedule l xs).
    rewrite (IH r' (<[l := store r' self]> h)) by apply lookup_insert_eq.
    destruct (steps r' xs) as [ys r'']; cbn [fst snd].
    rewrite insert_insert_eq. reflexivity.
Qed.

(** C4. Two instances constructed independently, in any two heaps, and fed
    the same input sequence return the same output sequence. *)
Theorem process_deterministic (h1 h2 : heap T) (xs : list T) :
  exists ys h1' h2',
    run (feed_schedule (construct h1).1 xs) (construct h1).2
      = Some (outputs_of (construct h1).1 ys, h1') /\
    run (feed_schedule (construct h2).1 xs) (construct h2).2
      = Some (outputs_of (construct h2).1 ys, h2').
Proof.
  exists (steps zeroed xs).1.
  eexists; eexists; split;
    apply run_feed; rewrite construct_lookup, new_store; reflexivity.
Qed.

Lemma only_cons {A} (l l' : nat) (a : A) (tr : list (nat * A)) :
  only l ((l', a) :: tr) = if decide (l' = l) then a :: only l tr else only l tr.
Proof. unfold only; cbn. destruct (decide (l' = l)); reflexivity. Qed.

(** C5. Instances own disjoint state.  A call on one instance leaves every
    other object of the heap as it was, and its result and effect depend on
    that instance alone.  Hence, for any schedule of [process] and [reset]
    calls across the filter instances of a heap, each instance returns the
    outputs, and ends in the state, it has when driven alone with its own
    calls. *)
Theorem instances_are_independent :
  (forall (h : heap T) (l l' : nat) (o : op T) out,
     call l o h = Some out -> l' <> l -> final_state out !! l' = h !! l') /\
  (forall (h1 h2 : heap T) (l : nat) (o : op T),
     h1 !! l = h2 !! l ->
     (returned <$> call l o h1 = returned <$> call l o h2) /\
     ((fun out => final_state out !! l) <$> call l o h1
      = (fun out => final_state out !! l) <$> call l o h2)) /\
  (forall (tr : list (nat * op T)) (h : heap T),
     filters h ->
     (forall e, e ∈ tr -> is_Some (h !! e.1)) ->
     exists outs h',
       run tr h = Some (outs, h') /\
       forall l self, h !! l = Some self ->
         exists self', h' !! l = Some self' /\
           drive (only l tr) self = Returns (only l outs) self').
Proof.
  split; [|split].
  - intros h l l' o out. unfold call.
    destruct (h !! l) as [self|]; [|discriminate].
    intros [= <-] Hne.
    destruct (invoke o self); cbn [final_state];
      apply lookup_insert_ne; congruence.
  - intros h1 h2 l o. unfold call. intros <-.
    destruct (h1 !! l) as [self|]; [|split; reflexivity].
    destruct (invoke o self); cbn; rewrite !lookup_insert_eq;
      split; reflexivity.
  - intros tr.
    induction tr as [|[l0 o] tr IH]; intros h Hh Hin.
    + exists [], h. split; [reflexivity|].
      intros l self Hl. exists self. split; [exact Hl|reflexivity].
    + destruct (Hin (l0, o)) as [self0 H0]; [left|]. cbn [fst] in H0.
      destruct (invoke_filter o self0 (Hh _ _ H0)) as (y & self0' & E & R).
      destruct (IH (<[l0 := self0']> h)) as (outs & h' & Hrun & Hall).
      { apply filters_insert; assumption. }
      { intros e He. rewrite lookup_insert. case_decide; [eauto|].
        apply Hin. right. exact He. }
      exists ((l0, y) :: outs), h'. split.
      { cbn [run]. unfold call. rewrite H0, E, Hrun. reflexivity. }
      intros l self Hl. rewrite !only_cons.
      destruct (decide (l0 = l)) as [->|Hne].
      * assert (self = self0) as -> by congruence.
        destruct (Hall l self0') as (self' & Hl' & D);
          [apply lookup_insert_eq|].
        exists self'. split; [exact Hl'|].
        cbn [drive]. unfold bind at 1. rewrite E.
        unfold bind at 1. rewrite D. reflexivity.
      * apply Hall. rewrite lookup_insert_ne by exact Hne. exact Hl.
Qed.

End Heap.

(** ** The embedded coefficients *)

(** Closed comparisons of rationals, by evaluation. *)
Ltac by_evaluation := apply Qle_bool_imp_le; vm_compute; reflexivity.

Section Coefficients.
Import MyFilter.
Local Open Scope Q_scope.

(** C1. The artifact reproduces the reference cascade of the design for
    [lowpass, rate 500.0, order 4, freq 50.0]: its coefficients are within
    [1e-6] of the reference, and, in exact arithmetic, one call of [process]
    computes [x = input + 1.04859958*z1 - 0.29614036*z2] with numerator
    [0.00482434, 0.00964869, 0.00482434] in its first section and
    [x = input + 1.32091343*z1 - 0.63273879*z2] with numerator
    [1.0, 2.0, 1.0] in its second. *)
Theorem reference_reproduction :
  hdr_family artifact_header = lowpass /\
  hdr_rate artifact_header == 500.0 /\
  hdr_order artifact_header = 4%nat /\
  hdr_freq artifact_header == 50.0 /\
  Forall2 (close_to tolerance) sections reference_cascade /\
  forall (input z1 z2 z1' z2' : Q) (self : instance Q),
    exists x0 y0 x1 y1 : Q,
      x0 == input + 1.04859958 * z1 - 0.29614036 * z2 /\
      y0 == 0.00482434 * x0 + 0.00964869 * z1 + 0.00482434 * z2 /\
      x1 == y0 + 1.32091343 * z1' - 0.63273879 * z2' /\
      y1 == 1.0 * x1 + 2.0 * z1' + 1.0 * z2' /\
      process input (store (Registers z1 z2 z1' z2') self)
      = Returns y1 (store (Registers x0 z1 x1 z1') self).
Proof.
  repeat (split; [reflexivity|]). split.
  - unfold sections, reference_cascade.
    repeat (apply List.Forall2_cons;
            [unfold close_to; cbn; repeat split; by_evaluation|]).
    apply List.Forall2_nil.
  - intros input z1 z2 z1' z2' self. rewrite process_store.
    set (x0 := input - - (1.04859958) * z1 - 0.29614036 * z2).
    set (y0 := 0.00482434 * x0 + 0.00964869 * z1 + 0.00482434 * z2).
    set (x1 := y0 - - (1.32091343) * z1' - 0.63273879 * z2').
    exists x0, y0, x1, (1.00000000 * x1 + 2.00000000 * z1' + 1.00000000 * z2').
    repeat split; try reflexivity; unfold x1, x0; ring.
Qed.

End Coefficients.

(** ** Section count *)

Lemma ceil_half (order : nat) :
  let n := Z.to_nat (Qceiling (inject_Z (Z.of_nat order) / 2)) in
  (order <= 2 * n < order + 2)%nat.
Proof.
  cbv zeta. unfold Qceiling, Qfloor, Qdiv, Qmult, Qinv, Qopp, inject_Z.
  cbn [Qnum Qden]. change (Z.pos (1 * 2)) with 2%Z.
  set (a := Z.of_nat order).
  replace (- (a * 1))%Z with (- a)%Z by lia.
  assert (Ha : (0 <= a)%Z) by lia.
  pose proof (Z.div_mod (- a) 2 ltac:(lia)) as D.
  pose proof (Z.mod_pos_bound (- a) 2 ltac:(lia)) as M.
  lia.
Qed.

(** The poles of the closed upper half-plane among the first [n]. *)
Lemma upper_half_count (m n c : nat) :
  (2 * c <= m + 1 < 2 * c + 2)%nat ->
  length (List.filter (fun k => 2 * k + 1 <=? m)%nat (seq 0 n)) = (n `min` c)%nat.
Proof.
  intros Hc. induction n as [|n IH]; [reflexivity|].
  rewrite seq_S, List.filter_app, length_app, IH. cbn [List.filter plus].
  destruct (Nat.leb_spec (2 * n + 1) m); cbn [length]; lia.
Qed.

Lemma upper_half_test (order k : nat) :
  (pole_angle order k <=? 2 * order)%nat = (2 * k + 1 <=? order)%nat.
Proof.
  unfold pole_angle.
  destruct (Nat.leb_spec (2 * k + order + 1) (2 * order));
    destruct (Nat.leb_spec (2 * k + 1) order); lia || reflexivity.
Qed.

Lemma pole_pairs_spec (order : nat) (p : nat * nat) :
  p ∈ pole_pairs order
  <-> (2 * p.1 + 1 <= order /\ p.2 = order - 1 - p.1)%nat.
Proof.
  unfold pole_pairs. rewrite list_elem_of_In, in_map_iff. split.
  - intros (k & <- & Hk). apply filter_In in Hk as [Hk L].
    rewrite upper_half_test in L. apply Nat.leb_le in L. cbn. lia.
  - intros [L E]. exists p.1. split; [destruct p; cbn in *; congruence|].
    apply filter_In. split; [apply in_seq; lia|].
    rewrite upper_half_test. apply Nat.leb_le, L.
Qed.

Section Count.
Context {T : Type} `{Scalar T}.
Import MyFilter.
Local Open Scope string_scope.

Lemma process_returns (x : T) (self : instance T) :
  (exists y self', process x self = Returns y self')
  <-> state_attrs ⊆ dom self.
Proof.
  split.
  - intros (y & self' & E). unfold process in E.
    destruct (self !! "z1_0") as [a|] eqn:Ha;
    destruct (self !! "z2_0") as [b|] eqn:Hb;
    destruct (self !! "z1_1") as [c|] eqn:Hc;
    destruct (self !! "z2_1") as [d|] eqn:Hd;
    repeat (progress (cbv beta iota zeta delta [bind getattr setattr ret] in E;
                      repeat first [ rewrite lookup_insert_eq in E
                                   | rewrite lookup_insert_ne in E by discriminate ];
                      rewrite ?Ha, ?Hb, ?Hc, ?Hd in E));
    try discriminate E.
    intros k. unfold state_attrs.
    rewrite !elem_of_union, !elem_of_singleton, elem_of_dom.
    intros [[[->| ->]| ->]| ->]; eauto.
  - intros D.
    assert (S : forall k, k ∈ state_attrs -> is_Some (self !! k)).
    { intros k Hk. apply elem_of_dom, D, Hk. }
    unfold state_attrs in S.
    destruct (S "z1_0") as [a Ha]; [set_solver|].
    destruct (S "z2_0") as [b Hb]; [set_solver|].
    destruct (S "z1_1") as [c Hc]; [set_solver|].
    destruct (S "z2_1") as [d Hd]; [set_solver|].
    rewrite <- (store_regs (Registers a b c d) self).
    + rewrite process_store. eauto.
    + unfold regs. rewrite Ha, Hb, Hc, Hd. reflexivity.
Qed.

(** C8. A low-pass or high-pass design of order [order] has
    [ceil(order/2)] sections: its [order] poles, packed in conjugate pairs
    with the real pole of an odd order on its own, make that many.  The
    order-4 low-pass artifact has exactly two: [process] is the cascade of
    two biquads, [__init__] creates four registers, two for each section,
    and [process] returns exactly when all four exist. *)
Theorem artifact_section_count :
  (forall order,
     length (pole_pairs order) = section_count lowpass order /\
     section_count highpass order = section_count lowpass order /\
     (order <= 2 * section_count lowpass order < order + 2)%nat /\
     Forall (fun p => (p.1 <= p.2 < order)%nat /\ conjugate order p.1 p.2 = true)
            (pole_pairs order) /\
     (forall k, (k < order)%nat ->
        exists p, p ∈ pole_pairs order /\ (k = p.1 \/ k = p.2))) /\
  let n :=
    section_count (hdr_family artifact_header) (hdr_order artifact_header) in
  n = 2%nat /\
  length (sections (T:=T)) = n /\
  dom (final_state (__init__ (∅ : instance T))) = state_attrs /\
  size (dom (final_state (__init__ (∅ : instance T)))) = (2 * n)%nat /\
  (forall (x : T) (self : instance T),
     (exists y self', process x self = Returns y self')
     <-> state_attrs ⊆ dom self) /\
  forall (x : T) (r : registers T) (self : instance T),
    length (section_states r) = n /\
    exists r',
      registers_of_states (cascade sections (section_states r) x).2 = Some r' /\
      process x (store r self)
      = Returns (cascade sections (section_states r) x).1 (store r' self).
Proof.
  split.
  - intros order. pose proof (ceil_half order) as C. cbv zeta in C.
    change (Z.to_nat (Qceiling (inject_Z (Z.of_nat order) / 2)))
      with (section_count lowpass order) in C.
    split; [|split; [reflexivity|split; [exact C|split]]].
    + unfold pole_pairs. rewrite length_map.
      rewrite (List.filter_ext _ _ (upper_half_test order)).
      rewrite (upper_half_count order order (section_count lowpass order));
        lia.
    + apply Forall_forall. intros p [L E]%pole_pairs_spec.
      unfold conjugate, pole_angle. rewrite E.
      split; [lia|]. apply Nat.eqb_eq. lia.
    + intros k Hk. destruct (Nat.le_gt_cases (2 * k + 1) order) as [L|L].
      * exists (k, (order - 1 - k)%nat).
        split; [apply pole_pairs_spec; cbn; lia|left; reflexivity].
      * exists ((order - 1 - k)%nat, k).
        split; [apply pole_pairs_spec; cbn; lia|right; reflexivity].
  - cbv zeta.
    assert (D : dom (final_state (__init__ (∅ : instance T))) = state_attrs).
    { rewrite init_store; cbn [final_state].
      rewrite dom_store, dom_empty_L. apply set_eq; intros k.
      rewrite elem_of_union, elem_of_empty. tauto. }
    split; [reflexivity|]. split; [reflexivity|]. split; [exact D|].
    split; [rewrite D; reflexivity|]. split; [exact process_returns|].
    intros x r self. split; [reflexivity|]. apply process_cascade.
Qed.

End Count.

(** ** Unsupported languages *)

Section Extension.
Import GUI Emitter.
Local Open Scope string_scope.


End Extension.

(** ** Poles *)

Section Stability.
Import MyFilter.
Local Open Scope R_scope.

(** A monic quadratic with negative discriminant has its two roots on the
    circle of squared radius [a2]. *)
Lemma conjugate_roots_modulus (a1 a2 re im : R) :
  a1 * a1 < 4 * a2 ->
  re * re - im * im + a1 * re + a2 = 0 ->
  2 * re * im + a1 * im = 0 ->
  re * re + im * im = a2.
Proof.
  intros D P1 P2.
  assert (E : im * (2 * re + a1) = 0) by lra.
  apply Rmult_integral in E. destruct E as [E|E].
  - subst im. exfalso.
    assert (S : 0 <= (2 * re + a1) * (2 * re + a1)) by apply Rle_0_sqr.
    nra.
  - replace a1 with (- 2 * re) in * by lra. nra.
Qed.

Lemma conjugate_roots_exist (a1 a2 : R) :
  a1 * a1 < 4 * a2 ->
  let re := - a1 / 2 in
  let im := R_sqrt.sqrt (a2 - a1 * a1 / 4) in
  re * re - im * im + a1 * re + a2 = 0 /\ 2 * re * im + a1 * im = 0.
Proof.
  intros D re im.
  assert (S : im * im = a2 - a1 * a1 / 4).
  { apply sqrt_sqrt. lra. }
  unfold re. split; [|field].
  replace (- a1 / 2 * (- a1 / 2) - im * im + a1 * (- a1 / 2) + a2)
    with (a2 - a1 * a1 / 4 - im * im) by field.
  rewrite S. ring.
Qed.

Lemma magnitude_lt_1 (re im : R) :
  re * re + im * im < 1 -> magnitude re im < 1.
Proof.
  intros L. unfold magnitude. rewrite <- sqrt_1.
  apply sqrt_lt_1; [nra|lra|exact L].
Qed.

Lemma section_coefficients (c : biquad Q) :
  c ∈ sections (T:=Q) ->
  Q2R (a1 c) * Q2R (a1 c) < 4 * Q2R (a2 c) /\ Q2R (a2 c) < 1.
Proof.
  intros Hc.
  assert (Hq : (a1 c * a1 c < 4 * a2 c)%Q /\ (a2 c < 1)%Q).
  { revert Hc. unfold sections. rewrite !elem_of_cons, elem_of_nil.
    intros [->|[->|[]]]; split; reflexivity. }
  destruct Hq as [D%Qlt_Rlt L%Qlt_Rlt].
  rewrite !Q2R_mult in D.
  replace (Q2R 4) with 4 in D by (unfold Q2R; simpl; field).
  replace (Q2R 1) with 1 in L by (unfold Q2R; simpl; field).
  split; assumption.
Qed.

(** C6. Each second-order section of the cascade is stable: taking [a1] and
    [a2] as the exact rational values of the embedded literals, the polynomial
    [z^2 + a1*z + a2] has complex roots, and every one of them has magnitude
    strictly below 1. *)
Theorem sections_are_stable (c : biquad Q) :
  c ∈ sections (T:=Q) ->
  (exists re im, is_pole c re im) /\
  (forall re im, is_pole c re im -> magnitude re im < 1).
Proof.
  intros [D L]%section_coefficients. split.
  - destruct (conjugate_roots_exist _ _ D) as [P1 P2].
    eexists; eexists. unfold is_pole, char_poly.
    rewrite P1, P2. reflexivity.
  - intros re im P. unfold is_pole, char_poly in P.
    injection P as P1 P2.
    apply magnitude_lt_1.
    rewrite (conjugate_roots_modulus _ _ re im D P1 P2). exact L.
Qed.

End Stability.

(** ** Steady state under a constant input *)

Section Steady.
Context {T : Type} `{Scalar T}.
Import MyFilter.

Lemma steps_app (r : registers T) (xs ys : list T) :
  steps r (xs ++ ys)
  = ((steps r xs).1 ++ (steps (steps r xs).2 ys).1,
     (steps (steps r xs).2 ys).2).
Proof.
  revert r; induction xs as [|x xs IH]; intros r; cbn [app steps fst snd].
  - destruct (steps r ys); reflexivity.
  - destruct (step r x) as [y r']. rewrite IH.
    destruct (steps r' xs) as [zs r'']; cbn [fst snd].
    destruct (steps r'' ys); reflexivity.
Qed.

(** A state that a call with input [x] maps to itself keeps answering [y]. *)
Lemma steps_steady (r : registers T) (x y : T) (k : nat) :
  step r x = (y, r) -> steps r (replicate k x) = (replicate k y, r).
Proof.
  intros E. induction k as [|k IH]; cbn [replicate steps].
  - reflexivity.
  - rewrite E, IH. reflexivity.
Qed.

Lemma unit_step_response_steps (n : nat) :
  unit_step_response n = last (steps zeroed (replicate (S n) (lit 1.0))).1.
Proof.
  unfold unit_step_response. rewrite new_store, feed_store. reflexivity.
Qed.

Lemma steady_response (N : nat) (r : registers T) (y : T) :
  (steps zeroed (replicate N (lit 1.0))).2 = r ->
  step r (lit 1.0) = (y, r) ->
  forall n, (N <= n)%nat -> unit_step_response n = Some y.
Proof.
  intros Hr Hfix n Hn. rewrite unit_step_response_steps.
  replace (S n) with (N + S (n - N))%nat by lia.
  rewrite replicate_add, steps_app, Hr.
  rewrite (steps_steady r _ y _ Hfix). cbn [fst].
  rewrite replicate_S_end, app_assoc. apply last_snoc.
Qed.

End Steady.

(** ** Convergence of the unit-step response in exact arithmetic *)

Section Convergence.
Import MyFilter.
Local Open Scope Q_scope.

Lemma Qsquare_nonneg (x : Q) : 0 <= x * x.
Proof.
  destruct x as [n d]. unfold Qle, Qmult; simpl.
  rewrite Z.mul_1_r. apply Z.square_nonneg.
Qed.

Lemma quad_nonneg (A B C x y : Q) :
  0 < A -> B * B <= 4 * A * C -> 0 <= A * x * x + B * x * y + C * y * y.
Proof.
  intros HA HD.
  pose proof (Qsquare_nonneg (2 * A * x + B * y)) as S1.
  assert (S2 : 0 <= (4 * A * C - B * B) * (y * y)).
  { apply Qmult_le_0_compat; [lra|apply Qsquare_nonneg]. }
  assert (E : (4 * A) * (A * x * x + B * x * y + C * y * y)
              == (2 * A * x + B * y) * (2 * A * x + B * y)
                 + (4 * A * C - B * B) * (y * y)) by ring.
  apply (Qmult_le_l _ _ (4 * A)); [lra|]. rewrite E. lra.
Qed.

Lemma energy0_contracts (e1 e2 : Q) :
  energy0 (1.04859958 * e1 - 0.29614036 * e2) e1 == 0.29614036 * energy0 e1 e2.
Proof. unfold energy0. ring. Qed.

Lemma energy0_nonneg e1 e2 : 0 <= energy0 e1 e2.
Proof.
  unfold energy0.
  pose proof (quad_nonneg 1 (- 1.04859958) 0.29614036 e1 e2) as P.
  lapply P; [clear P; intros P|reflexivity].
  lapply P; [clear P; intros P|by_evaluation]. lra.
Qed.

Lemma energy1_nonneg f1 f2 : 0 <= energy1 f1 f2.
Proof.
  unfold energy1.
  pose proof (quad_nonneg 1 (- 1.32091343) 0.63273879 f1 f2) as P.
  lapply P; [clear P; intros P|reflexivity].
  lapply P; [clear P; intros P|by_evaluation]. lra.
Qed.

Lemma energy1_driven (u f1 f2 : Q) :
  energy1 (u + 1.32091343 * f1 - 0.63273879 * f2) f1
  <= 5 * (u * u) + (4 # 5) * energy1 f1 f2.
Proof.
  pose proof (energy1_nonneg f1 f2) as N.
  set (g := (1.32091343 / 2) * f1 - 0.63273879 * f2).
  pose proof (Qsquare_nonneg (2 * u - g / 2)) as S1.
  pose proof (Qsquare_nonneg f1) as S2.
  assert (E : 5 * (u * u) + (5 # 4) * 0.63273879 * energy1 f1 f2
              - energy1 (u + 1.32091343 * f1 - 0.63273879 * f2) f1
              == (2 * u - g / 2) * (2 * u - g / 2)
                 + (1 # 4) * (0.63273879 - 1.32091343 * 1.32091343 / 4) * (f1 * f1)).
  { unfold energy1, g. field. }
  assert (S3 : 0 <= (1 # 4) * (0.63273879 - 1.32091343 * 1.32091343 / 4)
                    * (f1 * f1)).
  { apply Qmult_le_0_compat; [by_evaluation|exact S2]. }
  assert (K : (5 # 4) * 0.63273879 * energy1 f1 f2
              <= (4 # 5) * energy1 f1 f2).
  { apply Qmult_le_compat_r; [by_evaluation|exact N]. }
  lra.
Qed.

Lemma drive_bound (e1 e2 : Q) :
  let u := 0.00482434 * (1.04859958 * e1 - 0.29614036 * e2)
           + 0.00964869 * e1 + 0.00482434 * e2 in
  u * u <= (1 # 50) * energy0 e1 e2.
Proof.
  intros u.
  set (c1 := 0.00482434 * 1.04859958 + 0.00964869).
  set (c2 := 0.00482434 - 0.00482434 * 0.29614036).
  pose proof (quad_nonneg ((1 # 50) - c1 * c1) ((1 # 50) * (- 1.04859958) - 2 * c1 * c2)
                ((1 # 50) * 0.29614036 - c2 * c2) e1 e2) as P.
  lapply P; [clear P; intros P|reflexivity].
  lapply P; [clear P; intros P|by_evaluation].
  assert (E : (1 # 50) * energy0 e1 e2 - u * u ==
     ((1 # 50) - c1 * c1) * e1 * e1 + ((1 # 50) * (- 1.04859958) - 2 * c1 * c2) * e1 * e2 +
     ((1 # 50) * 0.29614036 - c2 * c2) * e2 * e2).
  { unfold energy0, u, c1, c2. ring. }
  lra.
Qed.

Lemma energy_nonneg r : 0 <= energy r.
Proof.
  unfold energy.
  pose proof (energy1_nonneg (z1_1 r - z1_1 steady_state) (z2_1 r - z2_1 steady_state)).
  pose proof (energy0_nonneg (z1_0 r - z1_0 steady_state) (z2_0 r - z2_0 steady_state)).
  lra.
Qed.

Lemma energy0_wd (x x' y y' : Q) :
  x == x' -> y == y' -> energy0 x y == energy0 x' y'.
Proof. intros Hx Hy. unfold energy0. rewrite Hx, Hy. reflexivity. Qed.

Lemma energy1_wd (x x' y y' : Q) :
  x == x' -> y == y' -> energy1 x y == energy1 x' y'.
Proof. intros Hx Hy. unfold energy1. rewrite Hx, Hy. reflexivity. Qed.

(** The equations that make [steady_state] a fixed point under input [1]. *)
Lemma steady_state_eqs :
  let w0 := z1_0 steady_state in
  let w1 := z1_1 steady_state in
  z2_0 steady_state = w0 /\ z2_1 steady_state = w1 /\
  1 + 1.04859958 * w0 - 0.29614036 * w0 == w0 /\
  (0.00482434 + 0.00964869 + 0.00482434) * w0
    + 1.32091343 * w1 - 0.63273879 * w1 == w1 /\
  dc_gain sections == 4 * w1.
Proof.
  cbv zeta. split; [reflexivity|]. split; [reflexivity|].
  split; [|split]; apply Qeq_bool_eq; vm_compute; reflexivity.
Qed.

(** One call with input [1], on the deviations from the steady state. *)
Lemma step_deviation (r : registers Q) :
  let e1 := z1_0 r - z1_0 steady_state in
  let e2 := z2_0 r - z2_0 steady_state in
  let f1 := z1_1 r - z1_1 steady_state in
  let f2 := z2_1 r - z2_1 steady_state in
  let r' := (step r (lit 1.0)).2 in
  z1_0 r' - z1_0 steady_state == 1.04859958 * e1 - 0.29614036 * e2 /\
  z2_0 r' - z2_0 steady_state == e1 /\
  z1_1 r' - z1_1 steady_state
    == drive0 e1 e2 + 1.32091343 * f1 - 0.63273879 * f2 /\
  z2_1 r' - z2_1 steady_state == f1 /\
  (step r (lit 1.0)).1 - dc_gain sections
    == drive0 e1 e2 + ((2 + 1.32091343) * f1 + (1 - 0.63273879) * f2).
Proof.
  destruct steady_state_eqs as (E2 & E4 & F0 & F1 & G). cbv zeta in *.
  rewrite E2, E4, G. clear E2 E4 G.
  generalize dependent (z1_1 steady_state).
  generalize dependent (z1_0 steady_state). intros w0 F0 w1 F1.
  destruct r as [z1 z2 z3 z4]. unfold drive0. cbn.
  repeat split; lra.
Qed.

Lemma energy_step_eq (r : registers Q) :
  let e1 := z1_0 r - z1_0 steady_state in
  let e2 := z2_0 r - z2_0 steady_state in
  let f1 := z1_1 r - z1_1 steady_state in
  let f2 := z2_1 r - z2_1 steady_state in
  energy (step r (lit 1.0)).2
  == energy1 (drive0 e1 e2 + 1.32091343 * f1 - 0.63273879 * f2) f1
     + (1 # 5) * energy0 (1.04859958 * e1 - 0.29614036 * e2) e1.
Proof.
  destruct (step_deviation r) as (D1 & D2 & D3 & D4 & _). cbv zeta in *.
  unfold energy. apply Qplus_comp; [apply energy1_wd; assumption|].
  apply Qmult_comp; [reflexivity|apply energy0_wd; assumption].
Qed.

Lemma energy_step (r : registers Q) :
  energy (step r (lit 1.0)).2 <= (4 # 5) * energy r.
Proof.
  rewrite energy_step_eq. cbv zeta. unfold energy.
  set (e1 := z1_0 r - z1_0 steady_state).
  set (e2 := z2_0 r - z2_0 steady_state).
  set (f1 := z1_1 r - z1_1 steady_state).
  set (f2 := z2_1 r - z2_1 steady_state).
  pose proof (energy1_driven (drive0 e1 e2) f1 f2) as D.
  pose proof (drive_bound e1 e2) as U. cbv zeta in U. fold (drive0 e1 e2) in U.
  pose proof (energy0_contracts e1 e2) as C.
  pose proof (energy0_nonneg e1 e2) as N.
  assert (K : 0.29614036 * energy0 e1 e2 <= (3 # 10) * energy0 e1 e2).
  { apply Qmult_le_compat_r; [by_evaluation|exact N]. }
  lra.
Qed.

Lemma output_bound_form (f1 f2 : Q) :
  let v := (2 + 1.32091343) * f1 + (1 - 0.63273879) * f2 in
  v * v <= 100 * energy1 f1 f2.
Proof.
  intros v.
  set (c1 := 2 + 1.32091343). set (c2 := 1 - 0.63273879).
  pose proof (quad_nonneg (100 - c1 * c1) (100 * (- 1.32091343) - 2 * c1 * c2)
                (100 * 0.63273879 - c2 * c2) f1 f2) as P.
  lapply P; [clear P; intros P|reflexivity].
  lapply P; [clear P; intros P|by_evaluation].
  assert (E : 100 * energy1 f1 f2 - v * v ==
     (100 - c1 * c1) * f1 * f1 + (100 * (- 1.32091343) - 2 * c1 * c2) * f1 * f2 +
     (100 * 0.63273879 - c2 * c2) * f2 * f2).
  { unfold energy1, v, c1, c2. ring. }
  lra.
Qed.

Lemma output_error_eq (r : registers Q) :
  let e1 := z1_0 r - z1_0 steady_state in
  let e2 := z2_0 r - z2_0 steady_state in
  let f1 := z1_1 r - z1_1 steady_state in
  let f2 := z2_1 r - z2_1 steady_state in
  (step r (lit 1.0)).1 - dc_gain sections
  == drive0 e1 e2 + ((2 + 1.32091343) * f1 + (1 - 0.63273879) * f2).
Proof. apply step_deviation. Qed.

Lemma output_error (r : registers Q) :
  let d := (step r (lit 1.0)).1 - dc_gain sections in
  d * d <= 200 * energy r.
Proof.
  intros d. unfold energy.
  pose proof (output_error_eq r) as E. cbv zeta in E. fold d in E.
  set (e1 := z1_0 r - z1_0 steady_state) in *.
  set (e2 := z2_0 r - z2_0 steady_state) in *.
  set (f1 := z1_1 r - z1_1 steady_state) in *.
  set (f2 := z2_1 r - z2_1 steady_state) in *.
  pose proof (drive_bound e1 e2) as U. cbv zeta in U. fold (drive0 e1 e2) in U.
  pose proof (output_bound_form f1 f2) as F. cbv zeta in F.
  set (u := drive0 e1 e2) in *.
  set (v := (2 + 1.32091343) * f1 + (1 - 0.63273879) * f2) in *.
  pose proof (Qsquare_nonneg (u - v)) as S.
  assert (D : d * d == (u + v) * (u + v)) by (rewrite E; reflexivity).
  assert (X : (u + v) * (u + v) + (u - v) * (u - v) == 2 * (u * u) + 2 * (v * v)) by ring.
  pose proof (energy0_nonneg e1 e2) as N.
  clearbody u v d.
  lra.
Qed.

Lemma energy_decay (n : nat) :
  energy (steps zeroed (replicate n (lit 1.0))).2 <= (4 # 5) ^ Z.of_nat n.
Proof.
  induction n as [|n IH].
  - by_evaluation.
  - rewrite replicate_S_end, steps_app. cbn [fst snd steps].
    set (r := (steps zeroed (replicate n (lit 1.0))).2) in *.
    pose proof (energy_step r) as S.
    destruct (step r (lit 1.0)) as [y r']. cbn [snd] in *.
    rewrite Nat2Z.inj_succ. unfold Z.succ.
    rewrite Qpower_plus by discriminate. rewrite Qpower_1_r.
    lra.
Qed.

Lemma unit_step_response_last (n : nat) :
  unit_step_response (T:=Q) n
  = Some (step (steps zeroed (replicate n (lit 1.0))).2 (lit 1.0)).1.
Proof.
  rewrite unit_step_response_steps, replicate_S_end, steps_app.
  cbn [fst snd steps].
  destruct (step _ (lit 1.0)) as [y r']. cbn [fst]. apply last_snoc.
Qed.

Lemma exact_convergence (n : nat) :
  exists y : Q,
    unit_step_response n = Some y /\
    (y - dc_gain sections) * (y - dc_gain sections)
    <= 200 * (4 # 5) ^ Z.of_nat n.
Proof.
  eexists. split; [apply unit_step_response_last|].
  pose proof (output_error (steps zeroed (replicate n (lit 1.0))).2) as O.
  pose proof (energy_decay n) as D. cbv zeta in O.
  lra.
Qed.

End Convergence.

(** ** Gain at DC *)

Section Gain.
Import MyFilter.

Lemma settled_is_steady :
  step settled (lit 1.0) = ((step settled (lit 1.0)).1, settled).
Proof. vm_compute. reflexivity. Qed.

Lemma settled_def : (steps zeroed (replicate 159 (lit 1.0))).2 = settled.
Proof. unfold settled. reflexivity. Qed.

Lemma settled_near_unity : near_unity (step settled (lit 1.0)).1.
Proof. unfold near_unity. vm_compute. discriminate. Qed.

(** C7. The low-pass artifact has unit gain at DC.  In binary64 arithmetic
    the response of a new instance to the constant input [1.0] is constant
    from the 160th call on, at a value within [1e-3] of [1.0].  In exact
    arithmetic over the embedded literals, the product over the sections of
    [(b0+b1+b2)/(1+a1+a2)] is within [1e-3] of [1]; it is the output of
    [process] in the state that the constant input leaves in place, and the
    response of a new instance to the constant input converges to it
    geometrically. *)
Theorem lowpass_unity_dc_gain :
  (exists y : float,
     near_unity y /\
     forall n, (159 <= n)%nat -> unit_step_response n = Some y) /\
  (Qabs (dc_gain sections - 1) <= 0.001)%Q /\
  ((step steady_state (lit 1.0)).1 == dc_gain sections)%Q /\
  regs_eq (step steady_state (lit 1.0)).2 steady_state /\
  (forall n : nat, exists y : Q,
     unit_step_response n = Some y /\
     ((y - dc_gain sections) * (y - dc_gain sections)
      <= 200 * (4 # 5) ^ Z.of_nat n)%Q).
Proof.
  split; [|split; [|split; [|split]]].
  - exists (step settled (lit 1.0)).1. split; [exact settled_near_unity|].
    exact (steady_response 159 settled _ settled_def settled_is_steady).
  - by_evaluation.
  - apply Qeq_bool_eq. vm_compute. reflexivity.
  - unfold regs_eq.
    split; [|split; [|split]]; apply Qeq_bool_eq; vm_compute; reflexivity.
  - exact exact_convergence.
Qed.

End Gain.

(** ** Instances of the statements above *)

Section Witnesses.
Import MyFilter GUI.
Local Open Scope string_scope.

(** Two new instances in a heap, then an interleaved schedule. *)
Lemma instances_are_independent_witness :
  let h : heap Q := <[1%nat := new]> (<[0%nat := new]> ∅) in
  let tr := [(0%nat, Process 1%Q); (1%nat, Process 2%Q);
             (0%nat, Reset); (1%nat, Process 3%Q)] in
  exists outs h',
    run tr h = Some (outs, h') /\
    forall l self, h !! l = Some self ->
      exists self', h' !! l = Some self' /\
        drive (only l tr) self = Returns (only l outs) self'.
Proof.
  intros h tr.
  apply (proj2 (proj2 (instances_are_independent (T:=Q)))).
  - assert (N : is_Some (regs (new : instance Q))).
    { rewrite new_store, regs_store. eauto. }
    apply filters_insert, N. apply filters_insert, N. apply filters_empty.
  - intros e He. unfold tr in He.
    rewrite !elem_of_cons, elem_of_nil in He.
    destruct He as [->|[->|[->|[->|[]]]]]; unfold h; cbn [fst];
      rewrite ?lookup_insert_eq, ?lookup_insert_ne by discriminate; eauto.
Defined.

Lemma sections_are_stable_witness :
  let c : biquad Q :=
    (Biquad 0.00482434 0.00964869 0.00482434 (- 1.04859958) 0.29614036)%Q in
  (exists re im, is_pole c re im) /\
  (forall re im, is_pole c re im -> (magnitude re im < 1)%R).
Proof.
  intros c. apply (sections_are_stable c).
  unfold sections. apply elem_of_cons. left. reflexivity.
Defined.

Lemma gain_not_state_attr : "gain" ∉ (state_attrs : gset string).
Proof.
  unfold state_attrs. rewrite !elem_of_union, !elem_of_singleton.
  intros [[[E|E]|E]|E]; discriminate E.
Qed.

(** An instance carrying a foreign attribute keeps it across [reset]. *)
Lemma reset_then_replay_witness :
  let self : instance Q := <["gain" := 2%Q]> new in
  exists self',
    reset self = Returns tt self' /\
    self' !! "gain" = self !! "gain".
Proof.
  intros self.
  destruct (reset_then_replay self [1%Q; 2%Q]) as (self' & R & _ & F & _).
  exists self'. split; [exact R|]. apply F. exact gain_not_state_attr.
Defined.

Lemma lowpass_unity_dc_gain_witness :
  exists y : float, near_unity y /\ unit_step_response 159 = Some y.
Proof.
  destruct (proj1 lowpass_unity_dc_gain) as (y & Hy & Hn).
  exists y. split; [exact Hy|]. apply Hn. lia.
Defined.


(** The fifth pole of an order-5 design is in a section. *)
Lemma artifact_section_count_witness :
  exists p, p ∈ pole_pairs 5 /\ (4%nat = p.1 \/ 4%nat = p.2).
Proof.
  apply (proj2 (proj2 (proj2 (proj2
           (proj1 (artifact_section_count (T:=Q)) 5%nat))))).
  lia.
Defined.


Lemma process_writes_only_registers_witness :
  let self : instance Q := <["gain" := 2%Q]> new in
  final_state (process 1%Q self) !! "gain" = self !! "gain" /\
  dom (final_state (process 1%Q (new : instance Q))) = dom (new : instance Q).
Proof.
  intros self. split.
  - apply (proj1 (proj2 (process_writes_only_registers (T:=Q)))).
    exact gain_not_state_attr.
  - apply (proj1 (proj2 (proj2 (process_writes_only_registers (T:=Q))))).
    rewrite new_store, regs_store. eauto.
Defined.

End Witnesses.

(** * Further properties of the filter *)

(** ** Errors and reset *)

Section Operations.
Context {T : Type} `{Scalar T}.
Import MyFilter.
Local Open Scope string_scope.

(** X1. [process] returns exactly when the four registers exist.  Otherwise
    it raises [AttributeError] for the first missing one, in the order
    [z1_0], [z2_0], [z1_1], [z2_1]: the instance is untouched when a
    register of section 0 is missing, and section 0 has already been
    updated when a register of section 1 is missing. *)
Theorem process_missing_register (x : T) (self : instance T) :
  match self !! "z1_0", self !! "z2_0", self !! "z1_1", self !! "z2_1" with
  | None, _, _, _ => process x self = Raises (AttributeError "z1_0") self
  | Some _, None, _, _ => process x self = Raises (AttributeError "z2_0") self
  | Some a, Some b, None, _ =>
      process x self
      = Raises (AttributeError "z1_1")
          (<["z1_0" := (x - (- lit 1.04859958 * a) - (lit 0.29614036 * b))%sc]>
             (<["z2_0" := a]> self))
  | Some a, Some b, Some _, None =>
      process x self
      = Raises (AttributeError "z2_1")
          (<["z1_0" := (x - (- lit 1.04859958 * a) - (lit 0.29614036 * b))%sc]>
             (<["z2_0" := a]> self))
  | Some _, Some _, Some _, Some _ =>
      exists y self', process x self = Returns y self'
  end.
Proof.
  unfold process.
  destruct (self !! "z1_0") as [a|] eqn:Ha;
  destruct (self !! "z2_0") as [b|] eqn:Hb;
  destruct (self !! "z1_1") as [c|] eqn:Hc;
  destruct (self !! "z2_1") as [d|] eqn:Hd;
  repeat (progress (cbv beta iota zeta delta [bind getattr setattr ret];
                    attrs; rewrite ?Ha, ?Hb, ?Hc, ?Hd));
  eauto.
Qed.

(** X2. [reset] never raises.  After any sequence of calls on a new
    instance it gives back exactly the instance the constructor builds;
    on any instance a second [reset] changes nothing, and [__init__] run
    again is a [reset]. *)
Theorem reset_restores_new (ops : list (op T)) (self : instance T) :
  reset (final_state (drive ops new)) = Returns tt new /\
  reset (final_state (reset self)) = reset self /\
  __init__ self = reset self.
Proof.
  split; [|split].
  - rewrite new_store.
    destruct (drive_store ops zeroed ∅) as (ys & r & E). rewrite E.
    cbn [final_state]. rewrite reset_store, store_store. reflexivity.
  - rewrite !reset_store. cbn [final_state]. rewrite store_store.
    reflexivity.
  - reflexivity.
Qed.

End Operations.

(** ** Binary64 behaviour *)

Section Binary64.
Import MyFilter.

Lemma silent_step :
  step (T:=float) zeroed (lit 0.0) = (lit 0.0, zeroed).
Proof. vm_compute. reflexivity. Qed.

(** X4. Silence in, silence out: in binary64 a new instance fed any number
    of [0.0] samples returns [0.0] every time and stays as constructed. *)
Theorem silence_in_silence_out (n : nat) :
  feed (T:=float) (replicate n (lit 0.0)) new
  = Returns (replicate n (lit 0.0)) new.
Proof.
  rewrite new_store, feed_store.
  rewrite (steps_steady zeroed _ _ n silent_step). reflexivity.
Qed.

Lemma add_nan_l (y : float) : PrimFloat.add nan y = nan.
Proof. apply Prim2SF_inj. rewrite add_spec. reflexivity. Qed.

Lemma add_nan_r (x : float) : PrimFloat.add x nan = nan.
Proof.
  apply Prim2SF_inj. rewrite add_spec.
  change (Prim2SF nan) with S754_nan. unfold SF64add, SFadd.
  destruct (Prim2SF x); reflexivity.
Qed.

Lemma sub_nan_l (y : float) : PrimFloat.sub nan y = nan.
Proof. apply Prim2SF_inj. rewrite sub_spec. reflexivity. Qed.

Lemma sub_nan_r (x : float) : PrimFloat.sub x nan = nan.
Proof.
  apply Prim2SF_inj. rewrite sub_spec.
  change (Prim2SF nan) with S754_nan. unfold SF64sub, SFsub.
  destruct (Prim2SF x); reflexivity.
Qed.

Lemma mul_nan_r (x : float) : PrimFloat.mul x nan = nan.
Proof.
  apply Prim2SF_inj. rewrite mul_spec.
  change (Prim2SF nan) with S754_nan. unfold SF64mul, SFmul.
  destruct (Prim2SF x); reflexivity.
Qed.

Ltac nan_arith :=
  repeat first [ rewrite mul_nan_r | rewrite sub_nan_r | rewrite sub_nan_l
               | rewrite add_nan_l | rewrite add_nan_r ].

Ltac unfold_step :=
  unfold step, sections, section_states;
  cbn [cascade biquad_step a1 a2 b0 b1 b2 fst snd registers_of_states
       default z1_0 z1_1];
  unfold neg, add, sub, mul, float_Scalar.

Lemma step_poisoned (r : registers float) (x : float) :
  poisoned r -> (step r x).1 = nan /\ poisoned (step r x).2.
Proof.
  destruct r as [a b c d]. unfold poisoned. cbn [z1_0 z1_1].
  intros [-> ->]. unfold_step. nan_arith.
  split; [reflexivity|split; reflexivity].
Qed.

Lemma step_nan (r : registers float) :
  (step r nan).1 = nan /\ poisoned (step r nan).2.
Proof.
  destruct r as [a b c d]. unfold poisoned. unfold_step. nan_arith.
  split; [reflexivity|split; reflexivity].
Qed.

Lemma steps_poisoned (xs : list float) (r : registers float) :
  poisoned r -> (steps r xs).1 = replicate (length xs) nan.
Proof.
  revert r. induction xs as [|x xs IH]; intros r P; cbn [steps].
  - reflexivity.
  - destruct (step_poisoned r x P) as [O P'].
    destruct (step r x) as [y r']. cbn [fst snd] in *. subst y.
    specialize (IH r' P'). destruct (steps r' xs) as [ys r''].
    cbn [fst snd length replicate] in *. rewrite IH. reflexivity.
Qed.

Lemma steps_length {T} `{Scalar T} (xs : list T) (r : registers T) :
  length (steps r xs).1 = length xs.
Proof.
  revert r. induction xs as [|x xs IH]; intros r; cbn [steps].
  - reflexivity.
  - destruct (step r x) as [y r']. specialize (IH r').
    destruct (steps r' xs). cbn [fst length] in *. congruence.
Qed.

(** X5. A NaN sample poisons a binary64 instance: whatever was fed before
    and whatever is fed after, the output for the NaN sample and every
    later output is NaN. *)
Theorem nan_poisons (xs ys : list float) (r : registers float)
  (self : instance float) :
  exists out fin,
    length out = length xs /\
    feed (xs ++ nan :: ys)%list (store r self)
    = Returns (out ++ replicate (S (length ys)) nan)%list fin.
Proof.
  rewrite feed_store, steps_app. cbn [fst snd steps].
  set (r1 := (steps r xs).2).
  destruct (step_nan r1) as [O P].
  destruct (step r1 nan) as [y r2]. cbn [fst snd] in *. subst y.
  pose proof (steps_poisoned ys r2 P) as S.
  destruct (steps r2 ys) as [zs r3]. cbn [fst snd] in *. subst zs.
  exists (steps r xs).1. eexists. split; [apply steps_length|reflexivity].
Qed.

End Binary64.

(** * Further properties of the GUI *)

(** ** Strings *)

Section Strings.
Import GUI ModernFilterGUI.
Local Open Scope string_scope.

Lemma lower_char_idem (c : ascii) : lower_char (lower_char c) = lower_char c.
Proof. destruct c as [[] [] [] [] [] [] [] []]; reflexivity. Qed.

Lemma lower_idem (s : string) : lower (lower s) = lower s.
Proof.
  induction s as [|c s IH]; cbn [lower]; [reflexivity|].
  rewrite lower_char_idem, IH. reflexivity.
Qed.

Lemma rstrip_cons_nonempty (c : N) (s : str) :
  rstrip s <> [] -> rstrip (c :: s) = c :: rstrip s.
Proof. cbn [rstrip]. destruct (rstrip s); [congruence|reflexivity]. Qed.

Lemma rstrip_idem (s : str) : rstrip (rstrip s) = rstrip s.
Proof.
  induction s as [|c s IH]; [reflexivity|]. cbn [rstrip].
  destruct (rstrip s) as [|d t] eqn:E.
  - destruct (is_space c) eqn:S; [reflexivity|].
    cbn [rstrip]. rewrite S. reflexivity.
  - rewrite rstrip_cons_nonempty; [rewrite IH; reflexivity|].
    rewrite IH. discriminate.
Qed.

Lemma lstrip_rstrip (s : str) : lstrip (rstrip s) = rstrip (lstrip s).
Proof.
  induction s as [|c s IH]; [reflexivity|]. cbn [rstrip lstrip].
  destruct (rstrip s) as [|d t] eqn:E.
  - destruct (is_space c) eqn:S.
    + exact IH.
    + cbn [lstrip rstrip]. rewrite ?S, ?E, ?S. reflexivity.
  - destruct (is_space c) eqn:S.
    + cbn [lstrip]. rewrite ?S. exact IH.
    + cbn [lstrip rstrip]. rewrite ?S, ?E. reflexivity.
Qed.

Lemma lstrip_idem (s : str) : lstrip (lstrip s) = lstrip s.
Proof.
  induction s as [|c s IH]; [reflexivity|]. cbn [lstrip].
  destruct (is_space c) eqn:S; [exact IH|].
  cbn [lstrip]. rewrite S. reflexivity.
Qed.

Lemma strip_idem (s : str) : strip (strip s) = strip s.
Proof.
  unfold strip. rewrite (lstrip_rstrip (lstrip (rstrip s))).
  rewrite lstrip_idem, <- lstrip_rstrip, rstrip_idem. reflexivity.
Qed.

Lemma lstrip_head (s : str) (c : N) :
  head (lstrip s) = Some c -> is_space c = false.
Proof.
  induction s as [|d s IH]; [discriminate|]. cbn [lstrip].
  destruct (is_space d) eqn:S; [exact IH|].
  intros [= <-]. exact S.
Qed.

Lemma rstrip_last (s : str) (c : N) :
  last (rstrip s) = Some c -> is_space c = false.
Proof.
  induction s as [|d s IH]; [discriminate|]. cbn [rstrip].
  destruct (rstrip s) as [|e t] eqn:E.
  - destruct (is_space d) eqn:S; [discriminate|].
    intros [= <-]. exact S.
  - exact IH.
Qed.

Lemma nonempty_true (s : str) : nonempty s = true <-> s <> [].
Proof. destruct s; cbn; split; congruence. Qed.

Lemma strip_trimmed (s : str) : nonempty (strip s) = true -> trimmed (strip s).
Proof.
  intros E. split; [apply nonempty_true, E|].
  intros c [Hc|Hc].
  - exact (lstrip_head _ _ Hc).
  - unfold strip in Hc. rewrite lstrip_rstrip in Hc.
    exact (rstrip_last _ _ Hc).
Qed.

Lemma get_file_extension_known (currentText : string) :
  get_file_extension currentText ∈ known_extensions.
Proof.
  unfold get_file_extension. cbv zeta.
  destruct (extensions !! lower currentText) as [e|] eqn:E; cbn [default].
  - unfold extensions in E. apply elem_of_list_to_map_2 in E.
    unfold known_extensions.
    rewrite !elem_of_cons, elem_of_nil in E.
    destruct E as [E|[E|[E|[E|[E|[]]]]]]; injection E as _ ->;
      rewrite !elem_of_cons; tauto.
  - unfold known_extensions. rewrite !elem_of_cons; tauto.
Qed.

(** X10. The extension lookup ignores the case of ASCII letters, and for
    every text whatsoever it answers one of the five extensions of its
    dictionary. *)
Theorem extension_lookup_range (currentText : string) :
  get_file_extension (lower currentText) = get_file_extension currentText /\
  get_file_extension currentText ∈ known_extensions.
Proof.
  split.
  - unfold get_file_extension. cbv zeta. rewrite lower_idem. reflexivity.
  - unfold get_file_extension. cbv zeta.
    destruct (extensions !! lower currentText) as [e|] eqn:E; cbn [default].
    + unfold extensions in E. apply elem_of_list_to_map_2 in E.
      unfold known_extensions.
      rewrite !elem_of_cons, elem_of_nil in E.
      destruct E as [E|[E|[E|[E|[E|[]]]]]]; injection E as _ ->;
        rewrite !elem_of_cons; tauto.
    + unfold known_extensions. rewrite !elem_of_cons; tauto.
Qed.

(** X14. No subscript of [self.tooltips] can fail: every key the window
    uses is a key of the dictionary, and every key of the dictionary is
    used. *)
Theorem tooltip_subscripts_succeed :
  Forall (fun k => is_Some (tooltips !! k)) tooltip_uses /\
  (forall k, is_Some (tooltips !! k) -> k ∈ tooltip_uses).
Proof.
  split.
  - unfold tooltip_uses.
    repeat (apply List.Forall_cons; [vm_compute; eauto|]).
    apply List.Forall_nil.
  - intros k [v E]. unfold tooltips in E. apply elem_of_list_to_map_2 in E.
    unfold tooltip_uses.
    rewrite !elem_of_cons, elem_of_nil in E. rewrite !elem_of_cons.
    repeat (destruct E as [E|E]; [injection E as -> _; tauto|]). destruct E.
Qed.

End Strings.

(** ** The command line and the handlers *)

Ltac sublist_of_flags :=
  repeat first [ apply sublist_nil | apply sublist_skip | apply sublist_cons ].

Section Command.
Import GUI ModernFilterGUI.
Local Open Scope string_scope.
Variables (executable script_path : str).
Variables (str_float : float -> str) (str_int : Z -> str).
Variable subprocess_run : list str -> FilterThread.subprocess_result.

Abbreviation cmd i :=
  (build_command executable script_path str_float str_int i).

(** The values the command carries for the flags that depend on the
    filter type and on the two free texts. *)
Lemma command_arguments (i : inputs) :
  argument (cmd i) "--width"
  = (if is_band i then Some (str_float (bandwidth i)) else None) /\
  argument (cmd i) "--name"
  = (if nonempty (strip (class_name i))
     then Some (strip (class_name i)) else None) /\
  argument (cmd i) "--out"
  = (if nonempty (strip (file_name i))
     then Some (strip (file_name i)
                ++ txt (get_file_extension (output_language i)))%list
     else None) /\
  argument (cmd i) "--plot"
  = (if generate_plot i
     then Some ((if nonempty (strip (file_name i))
                 then strip (file_name i) else txt (filter_type i))
                ++ txt "_response.png")%list
     else None).
Proof.
  unfold argument, build_command, is_band. cbv zeta.
  destruct (bool_decide (filter_type i ∈ ["bandpass"; "bandstop"]));
  destruct (nonempty (strip (class_name i)));
  destruct (nonempty (strip (file_name i)));
  destruct (generate_plot i);
  cbn [app drop flag_values];
  repeat split; reflexivity.
Qed.

(** X11. The command built for the generator is the program, the script
    and a list of flag/value pairs.  The flags come in the fixed order of
    [flags], each at most once; [--type], [--rate], [--order], [--freq] and
    [--language] are always there; [--width] is there exactly for band-pass
    and band-stop, [--name] and [--out] exactly when the class name and the
    file name, stripped of the white space around them, are not empty,
    [--plot] exactly when the box is checked. *)
Theorem build_command_flags (i : inputs) :
  let opts := flag_values (drop 2 (cmd i)) in
  cmd i = executable :: script_path
            :: concat (map (fun kv => [kv.1; kv.2]) opts) /\
  map fst opts `sublist_of` flags /\
  argument (cmd i) "--type" = Some (txt (filter_type i)) /\
  argument (cmd i) "--rate" = Some (str_float (sampling_rate i)) /\
  argument (cmd i) "--order" = Some (str_int (filter_order i)) /\
  argument (cmd i) "--freq" = Some (str_float (critical_freq i)) /\
  argument (cmd i) "--width"
  = (if is_band i then Some (str_float (bandwidth i)) else None) /\
  argument (cmd i) "--name"
  = (if nonempty (strip (class_name i))
     then Some (strip (class_name i)) else None) /\
  argument (cmd i) "--language" = Some (txt (lower (output_language i))) /\
  argument (cmd i) "--out"
  = (if nonempty (strip (file_name i))
     then Some (strip (file_name i)
                ++ txt (get_file_extension (output_language i)))%list
     else None) /\
  argument (cmd i) "--plot"
  = (if generate_plot i
     then Some ((if nonempty (strip (file_name i))
                 then strip (file_name i) else txt (filter_type i))
                ++ txt "_response.png")%list
     else None).
Proof.
  unfold argument, build_command, is_band. cbv zeta.
  destruct (bool_decide (filter_type i ∈ ["bandpass"; "bandstop"]));
  destruct (nonempty (strip (class_name i)));
  destruct (nonempty (strip (file_name i)));
  destruct (generate_plot i);
  cbn [app drop flag_values map concat fst snd];
  (split; [reflexivity|]);
  (split; [unfold flags; cbn [fmap list_fmap]; sublist_of_flags|]);
  repeat split; reflexivity.
Qed.

(** X12. The free-text arguments are trimmed, also of the white space of
    Unicode: a class name passed with [--name] is not empty and neither
    starts nor ends with white space, and a file passed with [--out] is
    such a name followed by one of the five extensions. *)
Theorem arguments_are_trimmed (i : inputs) (v : str) :
  (argument (cmd i) "--name" = Some v -> trimmed v /\ strip v = v) /\
  (argument (cmd i) "--out" = Some v ->
   exists base ext,
     v = (base ++ txt ext)%list /\ trimmed base /\ strip base = base /\
     ext ∈ known_extensions).
Proof.
  destruct (command_arguments i) as (_ & N & O & _).
  rewrite N, O. split.
  - destruct (nonempty (strip (class_name i))) eqn:E; [|discriminate].
    intros [= <-]. split; [apply strip_trimmed, E|apply strip_idem].
  - destruct (nonempty (strip (file_name i))) eqn:E; [|discriminate].
    intros [= <-]. do 2 eexists. split; [reflexivity|].
    split; [apply strip_trimmed, E|]. split; [apply strip_idem|].
    apply get_file_extension_known.
Qed.

(** X13. The frequency rows follow the filter type, and nothing else.  The
    handler never fails; any two states of the window with the same
    selected type get the same rows, whatever the other inputs and the rows
    shown before.  The three widgets of the bandwidth row are shown or
    hidden together, they are shown exactly when the command passes
    [--width], the label reads "Center Frequency (Hz)" exactly then, and
    the tool tip is the entry [center_freq] of [self.tooltips] for a band
    type, [critical_freq_lowpass] for [lowpass] and
    [critical_freq_highpass] for any other type. *)
Theorem bandwidth_row_follows_type (i : inputs) (rows : frequency_rows) :
  exists rows',
    on_filter_type_changed i rows = Some rows' /\
    (forall i2 rows2,
       filter_type i2 = filter_type i ->
       on_filter_type_changed i2 rows2 = Some rows') /\
    bandwidth_label_visible rows' = bandwidth_visible rows' /\
    bandwidth_info_visible rows' = bandwidth_visible rows' /\
    (bandwidth_visible rows' = true
     <-> is_Some (argument (cmd i) "--width")) /\
    freq_label rows'
    = (if bandwidth_visible rows' then "Center Frequency (Hz)"
       else "Cutoff Frequency (Hz)") /\
    tooltips !! (if bandwidth_visible rows' then "center_freq"
                 else if bool_decide (filter_type i = "lowpass")
                      then "critical_freq_lowpass"
                      else "critical_freq_highpass")
    = Some (freq_info rows').
Proof.
  destruct (command_arguments i) as (W & _).
  unfold is_band in W. unfold on_filter_type_changed. cbv zeta.
  destruct (bool_decide (filter_type i ∈ ["bandpass"; "bandstop"])) eqn:B.
  - eexists. split; [vm_compute; reflexivity|].
    split; [intros i2 rows2 ->; rewrite B; reflexivity|]. cbn.
    rewrite W. repeat split; eauto.
  - destruct (bool_decide (filter_type i = "lowpass")) eqn:L;
      (eexists; split; [vm_compute; reflexivity|]);
      (split; [intros i2 rows2 ->; rewrite B, L; reflexivity|]);
      cbn; rewrite W;
      repeat split; try discriminate; try (intros [? ?]; discriminate).
Qed.

(** X15. A click on the generate button and the completion of the worker
    always leave the button enabled and labelled "Generate Filter",
    whatever the user does to the window meanwhile.  The log shown before
    the click is discarded: the worker finds "Generating filter..." alone,
    or what the user has made of it.  When the generator exits with code 0
    the success line is added after it, then at most two more lines, and no
    dialog is shown; on any other exit code, or when the process cannot be
    run, the error line alone is added, one error dialog with the same
    text is shown, and the handler leaves the code preview alone. *)
Theorem generate_cycle_outcome (i : inputs) (e : edits) (s : status)
  (read_file : str -> file_read) (path_exists : str -> bool) :
  let s' := generate_cycle executable script_path str_float str_int
              read_file path_exists subprocess_run i e s in
  let log := retype_log e [txt "Generating filter..."] in
  let failed (detail : str) :=
    status_text s'
    = (log ++ [(ballot_x ++ txt "Error: " ++ detail)%list])%list /\
    message_boxes s'
    = (message_boxes s ++ [("Error", (txt "Error: " ++ detail)%list)])%list /\
    code_preview s' = retype_preview e (code_preview s) in
  generate_button_enabled s' = true /\
  generate_button_text s' = "Generate Filter" /\
  match subprocess_run (cmd i) with
  | FilterThread.Completed returncode stderr =>
      if (returncode =? 0)%Z then
        (exists rest,
           status_text s'
           = (log ++ (check_mark ++ txt "Filter generated successfully!")%list
                  :: rest)%list
           /\ (length rest <= 2)%nat) /\
        message_boxes s' = message_boxes s
      else failed stderr
  | FilterThread.Exception message => failed message
  end.
Proof.
  cbv zeta. unfold generate_cycle, generate_filter, FilterThread.run.
  cbv zeta.
  destruct (subprocess_run (cmd i)) as [rc detail|detail].
  - destruct (rc =? 0)%Z.
    + unfold on_generation_finished. cbv zeta.
      destruct (nonempty (strip (file_name (inputs_then e))));
        [destruct (read_file _)|]; destruct (generate_plot (inputs_then e));
        try destruct (path_exists _);
        cbn; (split; [reflexivity|]); (split; [reflexivity|]);
        (split; [|reflexivity]); rewrite <- ?app_assoc; cbn [app];
        eexists; (split; [reflexivity|cbn; lia]).
    + cbn. repeat split; reflexivity.
  - cbn. repeat split; reflexivity.
Qed.

(** X16. The success handler reads the input widgets again when the worker
    completes.  When the file name, the language, the plot box and the
    filter type are then as they were at the click, it looks at the file
    system only where the generator was told to write: its result is the
    same under any two file systems that agree on the file passed with
    [--out] and on the existence of the file passed with [--plot]. *)
Theorem handler_reads_requested_paths (i i' : inputs) (message : str)
  (s : status) (read_file read_file' : str -> file_read)
  (path_exists path_exists' : str -> bool) :
  file_name i' = file_name i ->
  output_language i' = output_language i ->
  generate_plot i' = generate_plot i ->
  filter_type i' = filter_type i ->
  (forall p, argument (cmd i) "--out" = Some p -> read_file p = read_file' p) ->
  (forall q, argument (cmd i) "--plot" = Some q ->
             path_exists q = path_exists' q) ->
  on_generation_finished read_file path_exists message i' s
  = on_generation_finished read_file' path_exists' message i' s.
Proof.
  destruct (command_arguments i) as (_ & _ & O & P).
  rewrite O, P. unfold on_generation_finished. cbv zeta.
  intros -> -> -> -> HO HP.
  destruct (nonempty (strip (file_name i))), (generate_plot i);
    rewrite <- ?(HO _ eq_refl), <- ?(HP _ eq_refl); reflexivity.
Qed.

(** X17. The success handler never shows a dialog and never fails on a
    missing or unreadable file.  With [i] what the input widgets hold when
    it runs: the preview takes the content of the file named by the
    stripped file name and the extension of the language when that file can
    be read, and is otherwise left alone; after the success line the log
    gets "Generated file: ..." on a successful read, one of the two
    warnings on a failed one, and nothing about the file when the file name
    is blank. *)
Theorem preview_follows_file (i : inputs) (message : str) (s : status)
  (read_file : str -> file_read) (path_exists : str -> bool) :
  let s' := on_generation_finished read_file path_exists message i s in
  let path :=
    (strip (file_name i) ++ txt (get_file_extension (output_language i)))%list in
  message_boxes s' = message_boxes s /\
  generate_button_enabled s' = true /\
  code_preview s'
  = (if nonempty (strip (file_name i)) then
       match read_file path with
       | Content code => code
       | _ => code_preview s
       end
     else code_preview s) /\
  (exists lines,
     status_text s'
     = (status_text s ++ (check_mark ++ message)%list :: lines)%list /\
     match (if nonempty (strip (file_name i))
            then Some (read_file path) else None) with
     | Some (Content _) =>
         head lines = Some (txt "Generated file: " ++ path)%list
     | Some FileNotFoundError =>
         head lines
         = Some (txt "Warning: Generated file not found for preview")
     | Some (OtherError e) =>
         head lines
         = Some (txt "Warning: Error reading generated file: " ++ e)%list
     | None =>
         Forall (fun l => exists q, l = (txt "Generated plot: " ++ q)%list) lines
     end).
Proof.
  cbv zeta. unfold on_generation_finished. cbv zeta.
  destruct (nonempty (strip (file_name i)));
    [destruct (read_file _)|]; destruct (generate_plot i);
    try destruct (path_exists _); cbn;
    (split; [reflexivity|]); (split; [reflexivity|]); (split; [reflexivity|]);
    rewrite <- ?app_assoc; cbn [app];
    eexists; (split; [reflexivity|]); cbn; eauto.
Qed.

End Command.

(** ** Instances of the further statements *)

Section MoreWitnesses.
Import MyFilter GUI ModernFilterGUI.
Local Open Scope string_scope.

Lemma arguments_are_trimmed_witness :
  (trimmed (txt "MyFilter") /\ strip (txt "MyFilter") = txt "MyFilter") /\
  exists base ext,
    txt "my_filter.py" = (base ++ txt ext)%list /\ trimmed base /\
    strip base = base /\ ext ∈ known_extensions.
Proof.
  split.
  - apply (proj1 (arguments_are_trimmed (txt "python3") (txt "filter_gen.py")
                    (fun _ => txt "50.0") (fun _ => txt "4") sample_inputs
                    (txt "MyFilter"))).
    vm_compute. reflexivity.
  - apply (proj2 (arguments_are_trimmed (txt "python3") (txt "filter_gen.py")
                    (fun _ => txt "50.0") (fun _ => txt "4") sample_inputs
                    (txt "my_filter.py"))).
    vm_compute. reflexivity.
Defined.

Lemma bandwidth_row_follows_type_witness :
  let blank := FrequencyRows EmptyString EmptyString false false false in
  exists rows',
    on_filter_type_changed sample_inputs blank = Some rows' /\
    on_filter_type_changed
      (Inputs "bandpass" 250 2 40 8 (txt "Notch") "java" [] false) rows'
    = Some rows' /\
    bandwidth_visible rows' = true.
Proof.
  intros blank.
  destruct (bandwidth_row_follows_type (txt "python3") (txt "filter_gen.py")
              (fun _ => txt "50.0") (fun _ => txt "4") sample_inputs blank)
    as (rows' & E & F & _ & _ & V & _).
  exists rows'. split; [exact E|]. split; [apply F; reflexivity|].
  apply V. vm_compute. eauto.
Defined.

Lemma tooltip_subscripts_succeed_witness : "plot" ∈ tooltip_uses.
Proof.
  apply (proj2 tooltip_subscripts_succeed "plot"). vm_compute. eauto.
Defined.

Lemma handler_reads_requested_paths_witness :
  let disk (other : file_read) (p : str) :=
    if bool_decide (p = txt "my_filter.py")
    then Content (txt "class MyFilter: pass") else other in
  let plots (other : bool) (q : str) :=
    if bool_decide (q = txt "my_filter_response.png") then true else other in
  let then_ :=
    Inputs "bandpass" 250 2 40 8 (txt "Notch") "Python"
           (file_name sample_inputs) true in
  let s := Status false EmptyString [] [] [] in
  on_generation_finished (disk FileNotFoundError) (plots false) (txt "done")
    then_ s
  = on_generation_finished (disk (OtherError (txt "denied"))) (plots true)
      (txt "done") then_ s.
Proof.
  intros disk plots then_ s.
  apply (handler_reads_requested_paths (txt "python3") (txt "filter_gen.py")
           (fun _ => txt "50.0") (fun _ => txt "4") sample_inputs then_);
    try reflexivity.
  - intros p. vm_compute. intros [= <-]. reflexivity.
  - intros q. vm_compute. intros [= <-]. reflexivity.
Defined.

End MoreWitnesses.
